(** * Arctis Nova Pro Wireless audio switcher: a shallow embedding

    The daemon in [arctis-audio-switcher.py] locates a raw HID node, polls
    the headset status over it once per second and switches the default
    PipeWire sink when the status changes.

    The embedding follows the script function by function.  Everything the
    script obtains from the operating system (directory listings, file
    contents, results of [os.write], [select.select], [os.read] and
    [subprocess.run]) is an explicit environment argument; everything it
    does to the outside world is an event of a trace.  Python exceptions are
    values of [exn] carried by [result]. *)

From Stdlib Require Import List Bool Arith NArith ZArith Lia.
From Stdlib Require Import Strings.Ascii Strings.String Strings.Byte.
From Stdlib Require Import Sorted Permutation.
From Stdlib Require Import DecimalString.
From Stdlib Require DecimalPos DecimalN.
Import ListNotations.

Local Open Scope string_scope.
Local Open Scope list_scope.

(** ** Python strings

    Text is modelled as [string]: the UTF-8 bytes of a Python [str].  The
    tests and cuts at ASCII text the script makes ([in], [split] at a dot
    or a line feed, [replace]) are the same on the bytes as on the
    characters and are defined here once and for all.  Case mapping, white
    space, digits and [int] depend on the Unicode tables of the
    interpreter; the script is modelled over any interpreter
    ([PyText] below), and the module gives these operations for the ASCII
    characters, which is what every interpreter does on text made of ASCII
    and box-drawing characters. *)

Module PyStr.

Definition is_upper (c : ascii) : bool :=
  let n := nat_of_ascii c in (65 <=? n)%nat && (n <=? 90)%nat.

Definition is_lower (c : ascii) : bool :=
  let n := nat_of_ascii c in (97 <=? n)%nat && (n <=? 122)%nat.

Definition is_digit (c : ascii) : bool :=
  let n := nat_of_ascii c in (48 <=? n)%nat && (n <=? 57)%nat.

(** [str.isspace] on the ASCII range: TAB, LF, VT, FF, CR, FS, GS, RS, US
    and the space. *)
Definition is_space (c : ascii) : bool :=
  let n := nat_of_ascii c in
  ((9 <=? n)%nat && (n <=? 13)%nat) || ((28 <=? n)%nat && (n <=? 32)%nat).

Definition upper_char (c : ascii) : ascii :=
  if is_lower c then ascii_of_nat (nat_of_ascii c - 32) else c.

Definition lower_char (c : ascii) : ascii :=
  if is_upper c then ascii_of_nat (nat_of_ascii c + 32) else c.

Fixpoint map_chars (f : ascii -> ascii) (s : string) : string :=
  match s with
  | EmptyString => EmptyString
  | String c s' => String (f c) (map_chars f s')
  end.

(** [s.upper()] and [s.lower()] *)
Definition upper : string -> string := map_chars upper_char.
Definition lower : string -> string := map_chars lower_char.

(** [pat in s] *)
Fixpoint contains (pat s : string) : bool :=
  prefix pat s ||
  match s with
  | EmptyString => false
  | String _ s' => contains pat s'
  end.

(** [s.replace(old, new)] for a non-empty [old]: occurrences are replaced
    from the left and do not overlap.  [skip] counts the characters of an
    occurrence that are still to be dropped. *)
Fixpoint replace_from (old new : string) (skip : nat) (s : string) : string :=
  match s with
  | EmptyString => EmptyString
  | String c s' =>
      match skip with
      | S k => replace_from old new k s'
      | O =>
          if prefix old s
          then (new ++ replace_from old new (String.length old - 1) s')%string
          else String c (replace_from old new 0 s')
      end
  end.

Definition replace (old new s : string) : string := replace_from old new 0 s.

(** [s.split(sep)] for a one-character separator: never empty, keeps empty
    pieces. *)
Fixpoint split (sep : ascii) (s : string) : list string :=
  match s with
  | EmptyString => [EmptyString]
  | String c s' =>
      if Ascii.eqb c sep then EmptyString :: split sep s'
      else match split sep s' with
           | h :: t => String c h :: t
           | [] => [String c EmptyString]
           end
  end.

Fixpoint lstrip (s : string) : string :=
  match s with
  | EmptyString => EmptyString
  | String c s' => if is_space c then lstrip s' else s
  end.

Fixpoint rstrip (s : string) : string :=
  match s with
  | EmptyString => EmptyString
  | String c s' =>
      match rstrip s' with
      | EmptyString => if is_space c then EmptyString else String c EmptyString
      | r => String c r
      end
  end.

(** [s.strip()] *)
Definition strip (s : string) : string := rstrip (lstrip s).

(** [s.split()] with no argument: the maximal runs of characters that are
    not white space. *)
Fixpoint words (s : string) : list string :=
  match s with
  | EmptyString => []
  | String c s' =>
      if is_space c then words s'
      else match s' with
           | EmptyString => [String c EmptyString]
           | String c' _ =>
               if is_space c' then String c EmptyString :: words s'
               else match words s' with
                    | h :: t => String c h :: t
                    | [] => [String c EmptyString]
                    end
           end
  end.

Fixpoint all_chars (p : ascii -> bool) (s : string) : bool :=
  match s with
  | EmptyString => true
  | String c s' => p c && all_chars p s'
  end.

(** [s.isdigit()]: at least one character, all of them digits. *)
Definition isdigit (s : string) : bool :=
  match s with
  | EmptyString => false
  | _ => all_chars is_digit s
  end.

Fixpoint int_from (acc : N) (s : string) : N :=
  match s with
  | EmptyString => acc
  | String c s' => int_from (10 * acc + (N_of_ascii c - 48))%N s'
  end.

(** [int(s)] on a string of digits *)
Definition int (s : string) : N := int_from 0%N s.

(** [str(n)] for a natural number *)
Definition str (n : N) : string := NilEmpty.string_of_uint (N.to_uint n).

(** [not s]: the empty string is false *)
Definition falsy (s : string) : bool :=
  match s with EmptyString => true | _ => false end.

Definition LF : ascii := ascii_of_nat 10.

(** ["\n".join(lines)] *)
Definition unlines (lines : list string) : string :=
  String.concat (String LF EmptyString) lines.

End PyStr.

(** ** The interpreter's text operations *)

(** Text made of ASCII characters and of box-drawing characters (U+2500 to
    U+257F, in UTF-8 the byte 226, then 148 or 149, then a byte from 128 to
    191): the characters of the metadata files and of the listings of
    [wpctl status] when no device carries a name outside ASCII. *)
Inductive plain : string -> Prop :=
| plain_nil : plain EmptyString
| plain_ascii (c : ascii) (s : string) :
    (nat_of_ascii c <? 128)%nat = true -> plain s -> plain (String c s)
| plain_box (c1 c2 c3 : ascii) (s : string) :
    (nat_of_ascii c1 =? 226)%nat = true ->
    ((nat_of_ascii c2 =? 148)%nat || (nat_of_ascii c2 =? 149)%nat) = true ->
    ((128 <=? nat_of_ascii c3)%nat && (nat_of_ascii c3 <=? 191)%nat) = true ->
    plain s ->
    plain (String c1 (String c2 (String c3 s))).

(** [plain], as a test *)
Fixpoint plainb (s : string) : bool :=
  match s with
  | EmptyString => true
  | String c1 s1 =>
      if (nat_of_ascii c1 <? 128)%nat then plainb s1
      else match s1 with
           | String c2 (String c3 s3) =>
               (nat_of_ascii c1 =? 226)%nat
               && ((nat_of_ascii c2 =? 148)%nat || (nat_of_ascii c2 =? 149)%nat)
               && ((128 <=? nat_of_ascii c3)%nat && (nat_of_ascii c3 <=? 191)%nat)
               && plainb s3
           | _ => false
           end
  end.

(** The longest string of digits that [int] converts whatever limit the
    interpreter is configured with: the default limit is 4300 digits, the
    lowest that can be set is 640. *)
Definition INT_MAX_STR_DIGITS : nat := 640.

(** The methods of [str] whose result depends on the Unicode tables, and
    [int].  [text_int] is [None] where [int] raises [ValueError].  On plain
    text the methods are the ASCII ones of [PyStr]; [int] reads a string of
    ASCII digits as a decimal number, at least up to
    [INT_MAX_STR_DIGITS] digits. *)
Class PyText : Type := {
  text_upper : string -> string;
  text_lower : string -> string;
  text_strip : string -> string;
  text_words : string -> list string;
  text_isdigit : string -> bool;
  text_int : string -> option N;
  upper_plain : forall s, plain s -> text_upper s = PyStr.upper s;
  lower_plain : forall s, plain s -> text_lower s = PyStr.lower s;
  strip_plain : forall s, plain s -> text_strip s = PyStr.strip s;
  words_plain : forall s, plain s -> text_words s = PyStr.words s;
  isdigit_plain : forall s, plain s -> text_isdigit s = PyStr.isdigit s;
  int_plain :
    forall s,
      PyStr.isdigit s = true ->
      (String.length s <= INT_MAX_STR_DIGITS)%nat ->
      text_int s = Some (PyStr.int s)
}.

(** An interpreter that knows ASCII only: the operations of [PyStr] on
    every text, and an [int] that reads any string as a decimal number. *)
Definition ascii_text : PyText := {|
  text_upper := PyStr.upper;
  text_lower := PyStr.lower;
  text_strip := PyStr.strip;
  text_words := PyStr.words;
  text_isdigit := PyStr.isdigit;
  text_int := fun s => Some (PyStr.int s);
  upper_plain := fun _ _ => eq_refl;
  lower_plain := fun _ _ => eq_refl;
  strip_plain := fun _ _ => eq_refl;
  words_plain := fun _ _ => eq_refl;
  isdigit_plain := fun _ _ => eq_refl;
  int_plain := fun _ _ _ => eq_refl
|}.

(** ** Exceptions, results and traces *)

(** The exception classes that matter to the script's handlers.
    [KeyboardInterrupt] and [SystemExit] derive from [BaseException] only; the
    others derive from [Exception] ([PermissionError] and
    [FileNotFoundError] through [OSError]). *)
Inductive exn : Type :=
| OSError
| PermissionError
| FileNotFoundError
| IndexError
| ValueError
| UnicodeDecodeError
| SystemExit (code : Z)
| KeyboardInterrupt.

(** [isinstance(e, Exception)] *)
Definition is_Exception (e : exn) : bool :=
  match e with KeyboardInterrupt | SystemExit _ => false | _ => true end.

Definition is_PermissionError (e : exn) : bool :=
  match e with PermissionError => true | _ => false end.

Definition is_KeyboardInterrupt (e : exn) : bool :=
  match e with KeyboardInterrupt => true | _ => false end.

Inductive result (A : Type) : Type :=
| Ok (a : A)
| Raise (e : exn).
Arguments Ok {A} a.
Arguments Raise {A} e.

(** The two strings [get_headset_state] returns when it does not return
    [None]. *)
Inductive HeadsetState : Type := ON | OFF.

Definition HeadsetState_eqb (a b : HeadsetState) : bool :=
  match a, b with
  | ON, ON | OFF, OFF => true
  | _, _ => false
  end.

(** [a != b] on values that are [None] or one of the two strings *)
Definition state_ne (a b : option HeadsetState) : bool :=
  match a, b with
  | None, None => false
  | Some x, Some y => negb (HeadsetState_eqb x y)
  | _, _ => true
  end.

(** The lines the script prints. *)
Inductive log_line : Type :=
| LogStarting
| LogSkipping (device : string)
| LogFound (device : string)
| LogNoDevice
| LogUdevHint
| LogUsing (device : string)
| LogPermissionDenied (device : string)
| LogReplugHint
| LogMonitoring
| LogPollError (e : exn)
| LogFindSinkError (e : exn)
| LogNoSink (pattern : string)
| LogSwitching (friendly_name : string) (sink_id : N)
| LogStateChanged (last_state state : option HeadsetState)
| LogShuttingDown.

(** What a run does, in order.  [PollReturned] and [SwitchCalled] have no
    effect of their own: they mark the return of [get_headset_state] and the
    entry of [switch_audio] so that statements can speak of them. *)
Inductive event : Type :=
| Print (l : log_line)
| OsOpen (path : string)
| OsWrite (fd : Z) (data : list byte)
| Select (fd : Z) (timeout_ms waited_ms : N)
| OsRead (fd : Z) (max_bytes : nat)
| Run (argv : list string)
| Sleep (ms : N)
| OsClose (fd : Z)
| PollReturned (state : option HeadsetState)
| SwitchCalled (sink_name_pattern friendly_name : string).

Definition trace : Type := list event.

(** A computation: the events it produced and how it ended. *)
Definition M (A : Type) : Type := trace * result A.

Definition ret {A} (a : A) : M A := ([], Ok a).

Definition raise {A} (e : exn) : M A := ([], Raise e).

Definition bind {A B} (m : M A) (k : A -> M B) : M B :=
  match m with
  | (tr, Ok a) => let (tr', r) := k a in (tr ++ tr', r)
  | (tr, Raise e) => (tr, Raise e)
  end.

Definition emit (ev : event) : M unit := ([ev], Ok tt).

Definition print (l : log_line) : M unit := emit (Print l).

(** Lifts the outcome the environment fixed for a call, after the event of
    the call. *)
Definition perform {A} (ev : event) (outcome : result A) : M A :=
  ([ev], outcome).

(** [try: body  except C as e: handler(e)], where [catches] tells which
    exceptions are instances of [C]. *)
Definition try_except {A} (body : M A) (catches : exn -> bool)
    (handler : exn -> M A) : M A :=
  match body with
  | (tr, Ok a) => (tr, Ok a)
  | (tr, Raise e) =>
      if catches e then let (tr', r) := handler e in (tr ++ tr', r)
      else (tr, Raise e)
  end.

(** [try: body  finally: cleanup] *)
Definition try_finally {A} (body : M A) (cleanup : M unit) : M A :=
  match body, cleanup with
  | (tr, r), (tr', Ok _) => (tr ++ tr', r)
  | (tr, _), (tr', Raise e) => (tr ++ tr', Raise e)
  end.

Declare Scope py_scope.
Delimit Scope py_scope with py.
Notation "x <- m ;; k" := (bind m (fun x => k))
  (at level 61, m at next level, right associativity) : py_scope.
Notation "m ;;; k" := (bind m (fun _ => k))
  (at level 61, right associativity) : py_scope.
Local Open Scope py_scope.

(** * The script

    The definitions from here on follow the script, run by an interpreter
    [T]. *)

Section Script.

Context {T : PyText}.

(** ** Configuration and device constants *)

Definition HEADPHONE_SINK_NAME : string := "Arctis Nova Pro".
Definition SPEAKER_SINK_NAME : string := "Starship/Matisse".

(** [POLL_INTERVAL = 1.0] seconds, in milliseconds *)
Definition POLL_INTERVAL : N := 1000.

Definition VENDOR_ID : string := "1038".
Definition PRODUCT_IDS : list string := ["12E0"; "12E5"].

Definition POLL_COMMAND : list byte := [x06; xb0] ++ repeat x00 29.

Definition HEADSET_OFFLINE : N := 1.
Definition HEADSET_CHARGING : N := 2.
Definition HEADSET_ONLINE : N := 8.

(** ** Headset status poller *)

(** When the device node becomes readable, counted in milliseconds from the
    call of [select.select]. *)
Inductive readiness : Type :=
| ReadableAfter (ms : N)
| NeverReadable.

(** What the operating system answers during one call of
    [get_headset_state]: the result of [os.write], the readiness of the
    node (or the exception [select.select] raises) and the bytes the node
    has to deliver (or the exception [os.read] raises). *)
Record poll_io : Type := {
  io_write : result nat;
  io_select : result readiness;
  io_read : result (list byte)
}.

Definition os_write (fd : Z) (data : list byte) (io : poll_io) : M nat :=
  perform (OsWrite fd data) (io_write io).

(** [select.select([fd], [], [], timeout)]: returns after the node became
    readable or after the timeout, whichever is first; the result says
    whether [fd] is in the list of readable descriptors. *)
Definition select_readable (fd : Z) (timeout_ms : N) (io : poll_io) : M bool :=
  match io_select io with
  | Raise e => perform (Select fd timeout_ms 0) (Raise e)
  | Ok (ReadableAfter t) =>
      if (t <=? timeout_ms)%N
      then perform (Select fd timeout_ms t) (Ok true)
      else perform (Select fd timeout_ms timeout_ms) (Ok false)
  | Ok NeverReadable => perform (Select fd timeout_ms timeout_ms) (Ok false)
  end.

(** [os.read(fd, n)]: at most [n] of the bytes the node delivers. *)
Definition os_read (fd : Z) (n : nat) (io : poll_io) : M (list byte) :=
  perform (OsRead fd n)
    (match io_read io with
     | Ok data => Ok (firstn n data)
     | Raise e => Raise e
     end).

(** [response[i]] *)
Definition index (response : list byte) (i : nat) : M N :=
  match nth_error response i with
  | Some b => ret (Byte.to_N b)
  | None => raise IndexError
  end.

Definition get_headset_state (fd : Z) (io : poll_io) : M (option HeadsetState) :=
  try_except
    (_ <- os_write fd POLL_COMMAND io ;;
     r <- select_readable fd 500 io ;;
     if negb r then ret None
     else
       response <- os_read fd 128 io ;;
       if (List.length response <? 16)%nat then ret None
       else
         status_byte <- index response 15 ;;
         if (status_byte =? HEADSET_OFFLINE)%N then ret (Some OFF)
         else if (status_byte =? HEADSET_ONLINE)%N
                 || (status_byte =? HEADSET_CHARGING)%N
         then ret (Some ON)
         else ret None)
    is_Exception
    (fun e => print (LogPollError e) ;;; ret None).

(** ** Output switch controller *)

(** The loop of [find_sink_id] over the lines of the listing;
    [in_sinks_section] is the loop's flag.  Leaving the loop by [break]
    reaches [return None]. *)
Fixpoint find_sink_id_loop (name_pattern : string) (in_sinks_section : bool)
    (lines : list string) : M (option N) :=
  match lines with
  | [] => ret None
  | line :: rest =>
      if PyStr.contains "Sinks:" line
      then find_sink_id_loop name_pattern true rest
      else if in_sinks_section
              && (PyStr.contains ":" line && negb (PyStr.contains "│" line))
      then ret None
      else if in_sinks_section
              && PyStr.contains (text_lower name_pattern) (text_lower line)
      then
        if PyStr.contains "Analog Stereo" line || PyStr.contains "Stereo" line
        then
          let parts := PyStr.split "." line in
          if (2 <=? List.length parts)%nat
          then
            num_part <-
              match rev (text_words (text_strip (hd EmptyString parts))) with
              | w :: _ => ret w
              | [] => raise IndexError
              end ;;
            if text_isdigit num_part
            then
              match text_int num_part with
              | Some sink_id => ret (Some sink_id)
              | None => raise ValueError
              end
            else find_sink_id_loop name_pattern in_sinks_section rest
          else find_sink_id_loop name_pattern in_sinks_section rest
        else find_sink_id_loop name_pattern in_sinks_section rest
      else find_sink_id_loop name_pattern in_sinks_section rest
  end.

(** [status] is what [subprocess.run(["wpctl", "status"], ...)] does: the
    captured standard output (the exit status is not looked at) or the
    exception of a command that could not be run. *)
Definition find_sink_id (name_pattern : string) (status : result string)
    : M (option N) :=
  try_except
    (stdout <- perform (Run ["wpctl"; "status"]) status ;;
     find_sink_id_loop name_pattern false (PyStr.split PyStr.LF stdout))
    is_Exception
    (fun e => print (LogFindSinkError e) ;;; ret None).

(** What the sink directory answers during one call of [switch_audio]:
    the listing, and the exit status of [wpctl set-default] or the
    exception of a command that could not be run. *)
Record switch_io : Type := {
  io_status : result string;
  io_set_default : result Z
}.

Definition switch_audio (sink_name_pattern friendly_name : string)
    (io : switch_io) : M unit :=
  emit (SwitchCalled sink_name_pattern friendly_name) ;;;
  sink_id <- find_sink_id sink_name_pattern (io_status io) ;;
  match sink_id with
  | None => print (LogNoSink sink_name_pattern)
  | Some id =>
      print (LogSwitching friendly_name id) ;;;
      _ <- perform (Run ["wpctl"; "set-default"; PyStr.str id])
             (io_set_default io) ;;
      ret tt
  end.

(** ** Device locator *)

(** A file of the metadata tree: absent, present but not readable as text
    (the [open] or the [read] raises an [Exception]), or readable. *)
Inductive file_state : Type :=
| Missing
| Unreadable
| Content (text : string).

(** The device nodes [glob.glob("/dev/hidraw*")] lists, in the order the
    operating system gives them, and the files under [/sys]. *)
Record devices_env : Type := {
  dev_nodes : list string;
  dev_files : string -> file_state
}.

Fixpoint insert_sorted (x : string) (l : list string) : list string :=
  match l with
  | [] => [x]
  | y :: l' => if String.leb x y then x :: l else y :: insert_sorted x l'
  end.

(** [sorted(l)] on strings: ascending in the order of the characters'
    codes. *)
Definition sorted (l : list string) : list string :=
  fold_right insert_sorted [] l.

Definition uevent_path_of (device : string) : string :=
  let device_num := PyStr.replace "/dev/hidraw" EmptyString device in
  let sysfs_path := ("/sys/class/hidraw/hidraw" ++ device_num ++ "/device")%string in
  (sysfs_path ++ "/" ++ "uevent")%string.

Fixpoint find_hidraw_device_loop (files : string -> file_state)
    (devices : list string) : M (option string) :=
  match devices with
  | [] => ret None
  | device :: rest =>
      match files (uevent_path_of device) with
      | Missing => find_hidraw_device_loop files rest
      | Unreadable => find_hidraw_device_loop files rest
      | Content text =>
          let uevent := text_upper text in
          if negb (PyStr.contains VENDOR_ID uevent)
          then find_hidraw_device_loop files rest
          else if negb (existsb (fun pid => PyStr.contains pid uevent) PRODUCT_IDS)
          then find_hidraw_device_loop files rest
          else if negb (PyStr.contains "INPUT4" uevent)
          then print (LogSkipping device) ;;; find_hidraw_device_loop files rest
          else print (LogFound device) ;;; ret (Some device)
      end
  end.

Definition find_hidraw_device (env : devices_env) : M (option string) :=
  find_hidraw_device_loop (dev_files env) (sorted (dev_nodes env)).

(** ** Main loop *)

(** What the outside world does during one iteration of the loop. *)
Record cycle_io : Type := {
  c_poll : poll_io;
  c_switch : switch_io;
  c_sleep : result unit
}.

(** One iteration of [while True]; the result is the value of [last_state]
    at the end of the iteration. *)
Definition loop_body (fd : Z) (last_state : option HeadsetState)
    (c : cycle_io) : M (option HeadsetState) :=
  state <- get_headset_state fd (c_poll c) ;;
  emit (PollReturned state) ;;;
  last_state' <-
    (match state with
     | Some s =>
         if state_ne state last_state
         then
           print (LogStateChanged last_state state) ;;;
           match s with
           | ON => switch_audio HEADPHONE_SINK_NAME "Headphones" (c_switch c)
           | OFF => switch_audio SPEAKER_SINK_NAME "Speakers" (c_switch c)
           end ;;;
           ret state
         else ret last_state
     | None => ret last_state
     end) ;;
  perform (Sleep POLL_INTERVAL) (c_sleep c) ;;;
  ret last_state'.

(** The loop run over the iterations the environment describes.  The loop
    has no exit of its own: [Ok last_state] says that it is still running
    after these iterations, [Raise e] that [e] left it. *)
Fixpoint main_loop (fd : Z) (last_state : option HeadsetState)
    (cycles : list cycle_io) : M (option HeadsetState) :=
  match cycles with
  | [] => ret last_state
  | c :: rest =>
      last_state' <- loop_body fd last_state c ;;
      main_loop fd last_state' rest
  end.

(** The state of the process after a run. *)
Inductive process : Type :=
| Running (last_state : option HeadsetState)
| Exited (code : Z).

(** The exit status of the interpreter: [sys.exit(n)] gives [n], an
    exception nobody caught gives 1 (130 for the interrupt), a normal
    return of [main] gives 0. *)
Definition exit_code (r : result unit) : Z :=
  match r with
  | Ok _ => 0
  | Raise (SystemExit n) => n
  | Raise KeyboardInterrupt => 130
  | Raise _ => 1
  end.

Record main_env : Type := {
  env_devices : devices_env;
  env_open : result Z
}.

Definition main (env : main_env) (cycles : list cycle_io) : trace * process :=
  let startup : M Z :=
    print LogStarting ;;;
    device <- find_hidraw_device (env_devices env) ;;
    match device with
    | Some path =>
        if PyStr.falsy path
        then print LogNoDevice ;;; print LogUdevHint ;;; raise (SystemExit 1)
        else
          print (LogUsing path) ;;;
          fd <- try_except (perform (OsOpen path) (env_open env))
                  is_PermissionError
                  (fun _ =>
                     print (LogPermissionDenied path) ;;;
                     print LogReplugHint ;;;
                     raise (SystemExit 1)) ;;
          print LogMonitoring ;;;
          ret fd
    | None => print LogNoDevice ;;; print LogUdevHint ;;; raise (SystemExit 1)
    end in
  match startup with
  | (tr, Raise e) => (tr, Exited (exit_code (Raise e)))
  | (tr, Ok fd) =>
      match main_loop fd None cycles with
      | (tr', Ok last_state) => (tr ++ tr', Running last_state)
      | (tr', Raise e) =>
          let (tr'', r) :=
            try_finally
              (try_except (tr', Raise e) is_KeyboardInterrupt
                 (fun _ => print LogShuttingDown))
              (emit (OsClose fd)) in
          (tr ++ tr'', Exited (exit_code r))
      end
  end.


(** * Vocabulary of the properties *)

(** ** Poller *)

(** The node answered: the write went through and the node became
    readable within the 500 ms, delivering [data]. *)
Definition answered (io : poll_io) (data : list byte) : Prop :=
  (exists n, io_write io = Ok n) /\
  (exists t, io_select io = Ok (ReadableAfter t) /\ (t <= 500)%N) /\
  io_read io = Ok data.

(** The node does not become readable within [ms] milliseconds. *)
Definition silent_for (ms : N) (r : readiness) : Prop :=
  match r with
  | ReadableAfter t => (ms < t)%N
  | NeverReadable => True
  end.

(** An environment in which the node answers after 3 ms. *)
Definition answering (data : list byte) : poll_io :=
  {| io_write := Ok 31;
     io_select := Ok (ReadableAfter 3);
     io_read := Ok data |}.

(** A 16-byte report whose last byte is the status. *)
Definition report (status : byte) : list byte := repeat x00 15 ++ [status].

(** ** Main loop *)

Definition is_key (ev : event) : bool :=
  match ev with
  | PollReturned _ | SwitchCalled _ _ => true
  | _ => false
  end.

(** The returns of the poller and the calls of the switch, in the order of
    the run. *)
Definition key_events (tr : trace) : list event := filter is_key tr.

(** The poll outcomes of a run *)
Definition polls_of (tr : trace) : list (option HeadsetState) :=
  flat_map (fun ev => match ev with PollReturned o => [o] | _ => [] end) tr.

(** The switch actions of a run: the arguments of each call of
    [switch_audio]. *)
Definition switches_of (tr : trace) : list (string * string) :=
  flat_map
    (fun ev => match ev with SwitchCalled p f => [(p, f)] | _ => [] end) tr.

Definition is_set_default (ev : event) : bool :=
  match ev with
  | Run (prog :: cmd :: _) => String.eqb prog "wpctl" && String.eqb cmd "set-default"
  | _ => false
  end.

(** The [wpctl set-default] commands of a run *)
Definition set_defaults (tr : trace) : list event := filter is_set_default tr.

(** A computation whose events all fail [P]. *)
Definition avoids {A} (P : event -> bool) (m : M A) : Prop :=
  filter P (fst m) = [].

(** The switch action that belongs to a state: headphones when the headset
    is on, speakers when it is off. *)
Definition switch_for (s : HeadsetState) : string * string :=
  match s with
  | ON => (HEADPHONE_SINK_NAME, "Headphones")
  | OFF => (SPEAKER_SINK_NAME, "Speakers")
  end.

Definition switch_event (s : HeadsetState) : event :=
  SwitchCalled (fst (switch_for s)) (snd (switch_for s)).

(** The outcomes that are a state, in order. *)
Definition definitive (os : list (option HeadsetState)) : list HeadsetState :=
  flat_map (fun o => match o with Some s => [s] | None => [] end) os.

(** One state for each maximal run of equal neighbours. *)
Fixpoint runs (l : list HeadsetState) : list HeadsetState :=
  match l with
  | [] => []
  | x :: l' =>
      match l' with
      | [] => [x]
      | y :: _ => if HeadsetState_eqb x y then runs l' else x :: runs l'
      end
  end.

(** The last-known state after a poll with outcome [o]. *)
Definition next_state (last_state o : option HeadsetState)
    : option HeadsetState :=
  match o with
  | Some s => Some s
  | None => last_state
  end.

(** The switch a poll outcome fires, given the last-known state. *)
Definition fired (last_state o : option HeadsetState) : list event :=
  match o with
  | Some s => if state_ne o last_state then [switch_event s] else []
  | None => []
  end.

(** The polls and switches expected of a run with the poll outcomes [os]
    that starts with [last_state]. *)
Fixpoint script (last_state : option HeadsetState)
    (os : list (option HeadsetState)) : list event :=
  match os with
  | [] => []
  | o :: os' =>
      PollReturned o :: fired last_state o ++ script (next_state last_state o) os'
  end.

(** A sink listing in the format of [wpctl status]. *)
Definition sample_listing : string :=
  PyStr.unlines
    [ "PipeWire 'pipewire-0' [1.0.5, user@host, cookie:1234567]";
      " └─ Clients:";
      "        33. WirePlumber [1.0.5, user@host, pid:1234]";
      EmptyString;
      "Audio";
      " ├─ Devices:";
      " │      46. Arctis Nova Pro Wireless            [alsa]";
      " │      47. Starship/Matisse HD Audio Controller [alsa]";
      " │  ";
      " ├─ Sinks:";
      " │  *   52. Arctis Nova Pro Wireless Analog Stereo [vol: 0.95]";
      " │      53. Starship/Matisse HD Audio Controller Analog Stereo [vol: 0.50]";
      " │  ";
      " ├─ Sources:";
      " │      54. Arctis Nova Pro Wireless Mono [vol: 1.00]";
      EmptyString ].

(** An iteration in which nothing goes wrong: the node answers with the
    status byte of the outcome (nothing within the timeout for [None]),
    the sink directory gives [listing] and accepts the new default, and
    the sleep returns. *)
Definition calm_cycle (listing : string) (o : option HeadsetState) : cycle_io :=
  {| c_poll :=
       match o with
       | Some ON => answering (report x08)
       | Some OFF => answering (report x01)
       | None => {| io_write := Ok 31; io_select := Ok NeverReadable;
                    io_read := Raise OSError |}
       end;
     c_switch := {| io_status := Ok listing; io_set_default := Ok 0%Z |};
     c_sleep := Ok tt |}.

(** ** Errors *)

(** A computation that, when it raises, raises an exception that passes
    [Q]. *)
Definition raises_only {A} (Q : exn -> bool) (m : M A) : Prop :=
  match snd m with
  | Ok _ => True
  | Raise e => Q e = true
  end.

(** The answer of the environment to one call is a value or an error of
    the class [Exception]: no interrupt arrives during the call. *)
Definition uninterrupted {A} (r : result A) : Prop :=
  match r with
  | Ok _ => True
  | Raise e => is_Exception e = true
  end.

(** An iteration whose errors are the ones the handlers of the script are
    written for: any [Exception] of [os.write], [select.select] or
    [os.read], a timeout, any report, any failure of the sink listing, any
    exit status of [wpctl set-default]. *)
Definition handled_errors (c : cycle_io) : Prop :=
  uninterrupted (io_write (c_poll c)) /\
  uninterrupted (io_select (c_poll c)) /\
  uninterrupted (io_read (c_poll c)) /\
  uninterrupted (io_status (c_switch c)) /\
  (exists code, io_set_default (c_switch c) = Ok code) /\
  c_sleep c = Ok tt.

(** ** Device locator *)

(** The three tests of the locator on the metadata of a node: the file is
    there and readable, and its text in upper case contains the vendor ID,
    one of the product IDs and the mark of interface 4. *)
Definition qualifies (files : string -> file_state) (device : string) : bool :=
  match files (uevent_path_of device) with
  | Content text =>
      let uevent := text_upper text in
      PyStr.contains VENDOR_ID uevent
      && existsb (fun pid => PyStr.contains pid uevent) PRODUCT_IDS
      && PyStr.contains "INPUT4" uevent
  | Missing | Unreadable => false
  end.

(** The order of [sorted] *)
Definition str_le (a b : string) : Prop := String.leb a b = true.

(** The metadata of the control interface of a Nova Pro Wireless, of its
    interface 3, and of a keyboard. *)
Definition uevent_nova_input4 : string :=
  PyStr.unlines
    [ "DRIVER=hid-generic";
      "HID_ID=0003:00001038:000012E0";
      "HID_NAME=SteelSeries Arctis Nova Pro Wireless";
      "HID_PHYS=usb-0000:0b:00.3-2/input4";
      "MODALIAS=hid:b0003g0001v00001038p000012E0" ].

Definition uevent_nova_input3 : string :=
  PyStr.unlines
    [ "DRIVER=hid-generic";
      "HID_ID=0003:00001038:000012E0";
      "HID_NAME=SteelSeries Arctis Nova Pro Wireless";
      "HID_PHYS=usb-0000:0b:00.3-2/input3";
      "MODALIAS=hid:b0003g0001v00001038p000012E0" ].

Definition uevent_keyboard : string :=
  PyStr.unlines
    [ "DRIVER=hid-generic";
      "HID_ID=0003:0000046D:0000C31C";
      "HID_NAME=Logitech USB Keyboard";
      "HID_PHYS=usb-0000:0b:00.3-1/input0" ].

(** A machine with four raw HID nodes: a keyboard, interfaces 3 and 4 of
    the headset base station, and a node without metadata. *)
Definition sample_files (path : string) : file_state :=
  if String.eqb path "/sys/class/hidraw/hidraw0/device/uevent"
  then Content uevent_keyboard
  else if String.eqb path "/sys/class/hidraw/hidraw1/device/uevent"
  then Content uevent_nova_input3
  else if String.eqb path "/sys/class/hidraw/hidraw2/device/uevent"
  then Content uevent_nova_input4
  else if String.eqb path "/sys/class/hidraw/hidraw10/device/uevent"
  then Content uevent_nova_input4
  else Missing.

Definition sample_devices : devices_env :=
  {| dev_nodes := ["/dev/hidraw3"; "/dev/hidraw2"; "/dev/hidraw0";
                   "/dev/hidraw10"; "/dev/hidraw1"];
     dev_files := sample_files |}.






(** ** Sink lookup *)

(** The two tests of [find_sink_id] on a line: the name pattern occurs in
    it whatever the case, and it says Stereo. *)
Definition matches (name_pattern line : string) : bool :=
  PyStr.contains (text_lower name_pattern) (text_lower line)
  && (PyStr.contains "Analog Stereo" line || PyStr.contains "Stereo" line).

(** The identifier [find_sink_id] reads off a line: the last word before
    the first dot, when the line has a dot and that word is a number.
    [Ok None] is a line the loop passes over; the [IndexError] is that of
    [split()[-1]] when nothing but white space precedes the dot, the
    [ValueError] that of [int] on a word [isdigit] accepts and [int] does
    not. *)
Definition sink_number (line : string) : result (option N) :=
  let parts := PyStr.split "." line in
  if (2 <=? List.length parts)%nat
  then match rev (text_words (text_strip (hd EmptyString parts))) with
       | w :: _ =>
           if text_isdigit w
           then match text_int w with
                | Some id => Ok (Some id)
                | None => Raise ValueError
                end
           else Ok None
       | [] => Raise IndexError
       end
  else Ok None.

(** The lines the loop of [find_sink_id] looks at: those after the first
    line with [Sinks:] and before the next line that has a colon and no
    vertical bar; further lines with [Sinks:] are passed over. *)
Fixpoint section_from (in_sinks_section : bool) (lines : list string)
    : list string :=
  match lines with
  | [] => []
  | line :: rest =>
      if PyStr.contains "Sinks:" line then section_from true rest
      else if in_sinks_section
              && (PyStr.contains ":" line && negb (PyStr.contains "│" line))
      then []
      else if in_sinks_section then line :: section_from true rest
      else section_from false rest
  end.

Definition sinks_section (stdout : string) : list string :=
  section_from false (PyStr.split PyStr.LF stdout).

(** The scan of the section. *)
Fixpoint scan_section (name_pattern : string) (entries : list string)
    : result (option N) :=
  match entries with
  | [] => Ok None
  | line :: rest =>
      if matches name_pattern line
      then match sink_number line with
           | Ok (Some id) => Ok (Some id)
           | Ok None => scan_section name_pattern rest
           | Raise e => Raise e
           end
      else scan_section name_pattern rest
  end.

(** A line the scan passes over: it fails one of the two tests or carries
    no identifier. *)
Definition passed_over (name_pattern line : string) : Prop :=
  matches name_pattern line = false \/ sink_number line = Ok None.

(** [line] is the first line of the section that passes the two tests and
    carries an identifier, [id], every line before it being passed over. *)
Definition selected (name_pattern stdout line : string) (id : N) : Prop :=
  exists pre post,
    sinks_section stdout = pre ++ line :: post /\
    Forall (passed_over name_pattern) pre /\
    matches name_pattern line = true /\
    sink_number line = Ok (Some id).

(** A listing in which a sink whose name begins with a dot stands before
    the sink of the headset; no identifier precedes that dot. *)
Definition dotted_name_listing : string :=
  PyStr.unlines
    [ "Audio";
      " ├─ Devices:";
      " │      46. Arctis Nova Pro Wireless            [alsa]";
      " │  ";
      " ├─ Sinks:";
      "        .Arctis Nova Pro Stereo";
      " │  *   52. Arctis Nova Pro Wireless Analog Stereo [vol: 0.95]";
      " │  ";
      " ├─ Sources:";
      EmptyString ].

(** An iteration in which the headset reports Online and the listing is
    [dotted_name_listing]. *)
Definition dotted_name_cycle : cycle_io :=
  {| c_poll := answering (report x08);
     c_switch := {| io_status := Ok dotted_name_listing;
                    io_set_default := Ok 0%Z |};
     c_sleep := Ok tt |}.


(** A listing whose descriptor is written in lower case. *)
Definition lowercase_listing : string :=
  PyStr.unlines
    [ "Audio";
      " ├─ Sinks:";
      " │  *   52. Arctis Nova Pro Wireless analog stereo [vol: 0.95]";
      " │  ";
      " ├─ Sources:";
      EmptyString ].

(** ** Errors of the switch and process exit *)

(** An iteration in which the headset reports Online, the listing has its
    sink, and [wpctl set-default] cannot be run. *)
Definition set_default_unavailable : cycle_io :=
  {| c_poll := answering (report x08);
     c_switch := {| io_status := Ok sample_listing;
                    io_set_default := Raise OSError |};
     c_sleep := Ok tt |}.

(** An iteration whose sleep is interrupted. *)
Definition interrupted_sleep (listing : string) (o : option HeadsetState)
    : cycle_io :=
  {| c_poll := c_poll (calm_cycle listing o);
     c_switch := c_switch (calm_cycle listing o);
     c_sleep := Raise KeyboardInterrupt |}.

(** A machine on which the node of the headset opens as descriptor 3. *)
Definition sample_env : main_env :=
  {| env_devices := sample_devices; env_open := Ok 3%Z |}.

Definition is_close (ev : event) : bool :=
  match ev with OsClose _ => true | _ => false end.


(** * Further vocabulary *)

(** ** Poller *)

(** What the handler of [get_headset_state] adds to the trace for an
    exception raised by its body. *)
Definition poll_error_log (e : exn) : trace :=
  if is_Exception e then [Print (LogPollError e)] else [].

(** How [get_headset_state] ends when its body raises [e]. *)
Definition poll_error_result (e : exn) : result (option HeadsetState) :=
  if is_Exception e then Ok None else Raise e.

(** ** Switch and loop *)

(** The events of an iteration that are not part of a call of
    [switch_audio]. *)
Definition outside_switch (ev : event) : bool :=
  match ev with
  | OsWrite _ _ | Select _ _ _ | OsRead _ _ | PollReturned _ | Sleep _ => true
  | Print (LogPollError _) | Print (LogStateChanged _ _) => true
  | _ => false
  end.

Definition is_status (ev : event) : bool :=
  match ev with
  | Run (prog :: cmd :: _) => String.eqb prog "wpctl" && String.eqb cmd "status"
  | _ => false
  end.

(** The [wpctl status] commands of a run *)
Definition status_runs (tr : trace) : list event := filter is_status tr.

(** An iteration in which [wpctl status] cannot be run. *)
Definition listing_unavailable (o : option HeadsetState) : cycle_io :=
  {| c_poll := c_poll (calm_cycle EmptyString o);
     c_switch := {| io_status := Raise FileNotFoundError;
                    io_set_default := Ok 0%Z |};
     c_sleep := Ok tt |}.

(** ** Process *)

(** What [main] does before the loop on a machine where [path] is found
    and opened. *)
Definition startup_trace (env : main_env) (path : string) : trace :=
  Print LogStarting ::
  fst (find_hidraw_device (env_devices env)) ++
  [Print (LogUsing path); OsOpen path; Print LogMonitoring].

(** A machine on which the node is found and the open fails with [e]. *)
Definition open_fails (e : exn) : main_env :=
  {| env_devices := sample_devices; env_open := Raise e |}.

(** An iteration in which the read fails. *)
Definition read_fails : cycle_io :=
  {| c_poll := {| io_write := Ok 31; io_select := Ok (ReadableAfter 1);
                  io_read := Raise OSError |};
     c_switch := {| io_status := Raise FileNotFoundError;
                    io_set_default := Ok 1%Z |};
     c_sleep := Ok tt |}.

Definition is_shutdown (ev : event) : bool :=
  match ev with Print LogShuttingDown => true | _ => false end.

(** An iteration whose report carries [status] at offset 15. *)
Definition reporting (status : byte) : cycle_io :=
  {| c_poll := answering (report status);
     c_switch := {| io_status := Ok sample_listing; io_set_default := Ok 0%Z |};
     c_sleep := Ok tt |}.

(** ** Lines of the listing *)

(** The text is empty or ends in white space. *)
Fixpoint ends_blank (s : string) : bool :=
  match s with
  | EmptyString => true
  | String c s' =>
      match s' with
      | EmptyString => PyStr.is_space c
      | String _ _ => ends_blank s'
      end
  end.

(** An iteration whose poll and switch meet handled errors only; nothing
    is said of its sleep. *)
Definition handled_before_sleep (c : cycle_io) : Prop :=
  uninterrupted (io_write (c_poll c)) /\
  uninterrupted (io_select (c_poll c)) /\
  uninterrupted (io_read (c_poll c)) /\
  uninterrupted (io_status (c_switch c)) /\
  (exists code, io_set_default (c_switch c) = Ok code).



(** An entry of the listing: the tree drawing and the mark of the default
    sink, then the identifier [id] in decimal, a dot and the description of
    the sink. *)
Definition entry (line : string) (id : N) : Prop :=
  exists lead rest,
    line = (lead ++ PyStr.str id ++ String "." rest)%string /\
    plain lead /\
    PyStr.contains "." lead = false /\
    ends_blank lead = true /\
    (String.length (PyStr.str id) <= INT_MAX_STR_DIGITS)%nat.

(** ** Plain input *)

(** A line in plain text, no longer than the longest number [int]
    converts. *)
Definition plain_line (line : string) : Prop :=
  plain line /\ (String.length line <= INT_MAX_STR_DIGITS)%nat.

Definition plain_lineb (line : string) : bool :=
  plainb line && (String.length line <=? INT_MAX_STR_DIGITS)%nat.

(** A listing whose section of the sinks is made of such lines, or no
    listing at all. *)
Definition plain_listing (status : result string) : Prop :=
  forall stdout, status = Ok stdout -> Forall plain_line (sinks_section stdout).

Definition plain_cycle (c : cycle_io) : Prop :=
  plain_listing (io_status (c_switch c)).

(** Metadata files in plain text. *)
Definition plain_files (files : string -> file_state) : Prop :=
  forall path text, files path = Content text -> plain text.

End Script.

(** * Properties *)

(** ** Computations *)

Lemma fst_bind {A B} (m : M A) (k : A -> M B) :
  fst (bind m k) =
  fst m ++ match snd m with Ok a => fst (k a) | Raise _ => [] end.
Proof.
  destruct m as [tr [a | e]]; simpl.
  - destruct (k a); reflexivity.
  - now rewrite app_nil_r.
Qed.

Lemma snd_bind {A B} (m : M A) (k : A -> M B) :
  snd (bind m k) =
  match snd m with Ok a => snd (k a) | Raise e => Raise e end.
Proof.
  destruct m as [tr [a | e]]; simpl; [destruct (k a) |]; reflexivity.
Qed.

Lemma fst_try_except {A} (body : M A) catches handler :
  fst (try_except body catches handler) =
  fst body ++ match snd body with
              | Ok _ => []
              | Raise e => if catches e then fst (handler e) else []
              end.
Proof.
  destruct body as [tr [a | e]]; simpl.
  - now rewrite app_nil_r.
  - destruct (catches e); simpl; [destruct (handler e) | rewrite app_nil_r];
      reflexivity.
Qed.

Lemma snd_try_except {A} (body : M A) catches handler :
  snd (try_except body catches handler) =
  match snd body with
  | Ok a => Ok a
  | Raise e => if catches e then snd (handler e) else Raise e
  end.
Proof.
  destruct body as [tr [a | e]]; simpl; [reflexivity |].
  destruct (catches e); simpl; [destruct (handler e) |]; reflexivity.
Qed.

Lemma bind_assoc {A B C} (m : M A) (k : A -> M B) (h : B -> M C) :
  bind (bind m k) h = bind m (fun a => bind (k a) h).
Proof.
  destruct m as [tr [a | e]]; cbn [bind]; [| reflexivity].
  destruct (k a) as [tr' [b | e']]; cbn [bind].
  - destruct (h b) as [tr'' r]. now rewrite app_assoc.
  - reflexivity.
Qed.

Lemma bind_ext {A B} (m : M A) (k k' : A -> M B) :
  (forall a, k a = k' a) -> bind m k = bind m k'.
Proof.
  intros Hk. destruct m as [tr [a | e]]; cbn [bind]; [| reflexivity].
  now rewrite Hk.
Qed.

Lemma bind_ret_l {A B} (a : A) (k : A -> M B) : bind (ret a) k = k a.
Proof. cbn. destruct (k a); reflexivity. Qed.

(** ** Text *)

Lemma length_append (a b : string) :
  String.length (a ++ b) = String.length a + String.length b.
Proof. induction a as [| c a IH]; cbn; [reflexivity | now rewrite IH]. Qed.

Lemma append_assoc (a b c : string) :
  ((a ++ b) ++ c)%string = (a ++ (b ++ c))%string.
Proof. induction a as [| x a IH]; cbn; [reflexivity | now rewrite IH]. Qed.

Lemma append_cancel_r (a b t : string) :
  (a ++ t)%string = (b ++ t)%string -> a = b.
Proof.
  revert b. induction a as [| x a IH]; intros [| y b] H; try reflexivity.
  - exfalso. apply (f_equal String.length) in H.
    cbn [append String.length] in H. rewrite length_append in H. lia.
  - exfalso. apply (f_equal String.length) in H.
    cbn [append String.length] in H. rewrite length_append in H. lia.
  - cbn [append] in H. injection H as -> H. f_equal. now apply IH.
Qed.

Lemma contains_dot_cons c s :
  PyStr.contains "." (String c s) = false ->
  Ascii.eqb c "." = false /\ PyStr.contains "." s = false.
Proof.
  cbn [PyStr.contains prefix]. intros H. apply orb_false_iff in H.
  destruct H as [Hp Hc]. split; [| exact Hc].
  destruct (Ascii.eqb_spec c "."); [| reflexivity].
  subst c. destruct (ascii_dec "." "."); [| congruence].
  destruct s; discriminate.
Qed.

Lemma split_at_first_dot a rest :
  PyStr.contains "." a = false ->
  PyStr.split "." (a ++ String "." rest) = a :: PyStr.split "." rest.
Proof.
  induction a as [| c a IH]; intros Hdot; [reflexivity |].
  apply contains_dot_cons in Hdot. destruct Hdot as [Hc Ha].
  cbn [append PyStr.split]. rewrite Hc, (IH Ha). reflexivity.
Qed.

Lemma split_nonempty sep s : PyStr.split sep s <> [].
Proof.
  destruct s as [| c s]; cbn [PyStr.split]; [discriminate |].
  destruct (Ascii.eqb c sep); [discriminate |].
  destruct (PyStr.split sep s); discriminate.
Qed.

Lemma words_lstrip s : PyStr.words (PyStr.lstrip s) = PyStr.words s.
Proof.
  induction s as [| c s IH]; [reflexivity |].
  cbn [PyStr.lstrip]. destruct (PyStr.is_space c) eqn:E; [| reflexivity].
  cbn [PyStr.words]. now rewrite E.
Qed.

Lemma rstrip_head s r0 r :
  PyStr.rstrip s = String r0 r -> exists t, s = String r0 t.
Proof.
  destruct s as [| c s]; [discriminate |]. cbn [PyStr.rstrip].
  destruct (PyStr.rstrip s); [destruct (PyStr.is_space c) |];
    intros [= <- _]; now exists s.
Qed.

Lemma words_cons_nonspace c s :
  PyStr.is_space c = false -> PyStr.words (String c s) <> [].
Proof.
  intros Hc. cbn [PyStr.words]. rewrite Hc.
  destruct s as [| c' s]; [discriminate |].
  destruct (PyStr.is_space c'); [discriminate |].
  destruct (PyStr.words (String c' s)); discriminate.
Qed.

Lemma words_cons_cons c c' s :
  PyStr.words (String c (String c' s)) =
  if PyStr.is_space c then PyStr.words (String c' s)
  else if PyStr.is_space c' then String c EmptyString :: PyStr.words (String c' s)
       else match PyStr.words (String c' s) with
            | h :: t => String c h :: t
            | [] => [String c EmptyString]
            end.
Proof. reflexivity. Qed.

Lemma words_rstrip s : PyStr.words (PyStr.rstrip s) = PyStr.words s.
Proof.
  induction s as [| c s IH]; [reflexivity |].
  cbn [PyStr.rstrip].
  destruct (PyStr.rstrip s) as [| r0 r] eqn:Er.
  - cbn [PyStr.words] in IH.
    destruct (PyStr.is_space c) eqn:Ec; cbn [PyStr.words]; rewrite Ec.
    + exact IH.
    + destruct s as [| c' s]; [reflexivity |].
      destruct (PyStr.is_space c') eqn:Ec'; [now rewrite <- IH |].
      exfalso. now apply (words_cons_nonspace c' s Ec').
  - destruct (rstrip_head s r0 r Er) as [t ->].
    rewrite !words_cons_cons, IH. reflexivity.
Qed.

Lemma words_strip s : PyStr.words (PyStr.strip s) = PyStr.words s.
Proof. unfold PyStr.strip. now rewrite words_rstrip, words_lstrip. Qed.

Lemma words_single w :
  w <> EmptyString ->
  PyStr.all_chars (fun c => negb (PyStr.is_space c)) w = true ->
  PyStr.words w = [w].
Proof.
  induction w as [| c w IH]; [congruence |]. intros _ Hall.
  cbn [PyStr.all_chars] in Hall. apply andb_true_iff in Hall.
  destruct Hall as [Hc Hw]. apply negb_true_iff in Hc.
  cbn [PyStr.words]. rewrite Hc.
  destruct w as [| c' w]; [reflexivity |].
  assert (Hc' : PyStr.is_space c' = false).
  { cbn [PyStr.all_chars] in Hw. apply andb_true_iff in Hw.
    now apply negb_true_iff. }
  rewrite Hc', IH; [reflexivity | discriminate | exact Hw].
Qed.

Lemma words_app_last lead w :
  ends_blank lead = true ->
  w <> EmptyString ->
  PyStr.all_chars (fun c => negb (PyStr.is_space c)) w = true ->
  PyStr.words (lead ++ w) = PyStr.words lead ++ [w].
Proof.
  intros Hlead Hne Hw.
  induction lead as [| c lead IH]; [now apply words_single |].
  cbn [ends_blank] in Hlead.
  destruct lead as [| c' lead].
  - cbn [append PyStr.words]. rewrite Hlead. now apply words_single.
  - specialize (IH Hlead).
    change (String c (String c' lead) ++ w)%string
      with (String c (String c' (lead ++ w))).
    change (String c' lead ++ w)%string with (String c' (lead ++ w)) in IH.
    rewrite !words_cons_cons, IH.
    destruct (PyStr.is_space c); [reflexivity |].
    destruct (PyStr.is_space c') eqn:Ec'; [reflexivity |].
    destruct (PyStr.words (String c' lead)) as [| h t] eqn:Ew; [| reflexivity].
    exfalso. now apply (words_cons_nonspace c' lead Ec').
Qed.

Lemma digit_facts c :
  PyStr.is_digit c = true ->
  PyStr.is_space c = false /\ Ascii.eqb c "." = false.
Proof.
  unfold PyStr.is_digit, PyStr.is_space. intros H.
  apply andb_true_iff in H. destruct H as [Hlo Hhi].
  apply Nat.leb_le in Hlo. apply Nat.leb_le in Hhi. split.
  - apply orb_false_iff. split; apply andb_false_iff.
    + right. apply Nat.leb_gt. lia.
    + right. apply Nat.leb_gt. lia.
  - destruct (Ascii.eqb_spec c "."); [| reflexivity].
    subst c. vm_compute in Hlo. lia.
Qed.

Lemma digits_facts ds :
  PyStr.all_chars PyStr.is_digit ds = true ->
  PyStr.all_chars (fun c => negb (PyStr.is_space c)) ds = true /\
  PyStr.contains "." ds = false.
Proof.
  induction ds as [| c ds IH]; [split; reflexivity |].
  cbn [PyStr.all_chars]. intros H. apply andb_true_iff in H.
  destruct H as [Hc Hds]. destruct (digit_facts c Hc) as [Hsp Hdot].
  destruct (IH Hds) as [IH1 IH2]. split.
  - now rewrite Hsp, IH1.
  - cbn [PyStr.contains prefix]. rewrite IH2.
    destruct (ascii_dec "." c) as [<- | _]; [discriminate | reflexivity].
Qed.

Lemma contains_dot_app a b :
  PyStr.contains "." a = false -> PyStr.contains "." b = false ->
  PyStr.contains "." (a ++ b) = false.
Proof.
  induction a as [| c a IH]; intros Ha Hb; [exact Hb |].
  apply contains_dot_cons in Ha. destruct Ha as [Hc Ha].
  cbn [append PyStr.contains prefix]. rewrite (IH Ha Hb).
  destruct (ascii_dec "." c) as [<- | _]; [discriminate | reflexivity].
Qed.

Lemma isdigit_all ds :
  PyStr.isdigit ds = true ->
  ds <> EmptyString /\ PyStr.all_chars PyStr.is_digit ds = true.
Proof. destruct ds; [discriminate |]. intros H. split; [discriminate | exact H]. Qed.

Lemma int_from_uint d :
  forall d',
    PyStr.int_from (DecimalPos.Unsigned.of_lu d') (NilEmpty.string_of_uint d) =
    DecimalPos.Unsigned.of_lu (Decimal.revapp d d').
Proof.
  induction d as [| d IH | d IH | d IH | d IH | d IH | d IH | d IH | d IH
                 | d IH | d IH]; intros d'; [reflexivity | ..];
    cbn [NilEmpty.string_of_uint PyStr.int_from Decimal.revapp];
    rewrite <- IH; f_equal;
    match goal with
    | |- context [(N_of_ascii ?c - 48)%N] =>
        let v := eval vm_compute in (N_of_ascii c - 48)%N in
        change (N_of_ascii c - 48)%N with v
    end;
    cbn [DecimalPos.Unsigned.of_lu]; lia.
Qed.

Lemma string_of_uint_digits d :
  PyStr.all_chars PyStr.is_digit (NilEmpty.string_of_uint d) = true.
Proof.
  induction d; cbn [NilEmpty.string_of_uint PyStr.all_chars];
    [reflexivity | ..]; rewrite IHd; reflexivity.
Qed.

(** [int] undoes [str]. *)
Lemma int_str n : PyStr.isdigit (PyStr.str n) = true /\ PyStr.int (PyStr.str n) = n.
Proof.
  unfold PyStr.str, PyStr.int. split.
  - unfold PyStr.isdigit.
    pose proof (string_of_uint_digits (N.to_uint n)) as Hd.
    destruct (NilEmpty.string_of_uint (N.to_uint n)) eqn:E; [| exact Hd].
    exfalso. destruct n as [| p]; [discriminate E |].
    cbn [N.to_uint] in E.
    pose proof (DecimalPos.Unsigned.to_uint_nonnil p) as Hnn.
    destruct (Pos.to_uint p); try discriminate E. now apply Hnn.
  - change 0%N with (DecimalPos.Unsigned.of_lu Decimal.Nil) at 1.
    rewrite int_from_uint. fold (Decimal.rev (N.to_uint n)).
    rewrite <- DecimalPos.Unsigned.of_uint_alt.
    apply DecimalN.Unsigned.of_to.
Qed.

(** ** Plain text *)

Lemma plainb_bounded n :
  forall s, String.length s <= n -> plainb s = true -> plain s.
Proof.
  induction n as [| n IH]; intros s Hlen H.
  - destruct s; [constructor | cbn in Hlen; lia].
  - destruct s as [| c1 s1]; [constructor |].
    cbn [plainb] in H. cbn [String.length] in Hlen.
    destruct (nat_of_ascii c1 <? 128)%nat eqn:E1.
    + apply plain_ascii; [exact E1 | apply IH; [lia | exact H]].
    + destruct s1 as [| c2 [| c3 s3]]; try discriminate.
      repeat (apply andb_true_iff in H; destruct H as [H ?]).
      apply plain_box; try assumption.
      apply IH; [cbn [String.length] in Hlen; lia | assumption].
Qed.

Lemma plainb_plain s : plainb s = true -> plain s.
Proof. apply (plainb_bounded (String.length s)). lia. Qed.

Lemma plain_app a b : plain a -> plain b -> plain (a ++ b).
Proof.
  intros Ha Hb. induction Ha; cbn [append];
    [exact Hb | now apply plain_ascii | now apply plain_box].
Qed.

Lemma plain_digits ds : PyStr.all_chars PyStr.is_digit ds = true -> plain ds.
Proof.
  induction ds as [| c ds IH]; [constructor |].
  cbn [PyStr.all_chars]. intros H. apply andb_true_iff in H.
  destruct H as [Hc Hds]. apply plain_ascii; [| now apply IH].
  unfold PyStr.is_digit in Hc. apply andb_true_iff in Hc.
  destruct Hc as [_ Hhi]. apply Nat.leb_le in Hhi. apply Nat.ltb_lt. lia.
Qed.

(** The bytes of a character outside ASCII are no white space and differ
    from every ASCII character. *)
Lemma high_not_space c :
  (128 <=? nat_of_ascii c)%nat = true -> PyStr.is_space c = false.
Proof.
  intros H. apply Nat.leb_le in H. unfold PyStr.is_space.
  apply orb_false_iff. split; apply andb_false_iff; right; apply Nat.leb_gt;
    lia.
Qed.

Lemma high_not_ascii c sep :
  (128 <=? nat_of_ascii c)%nat = true ->
  (nat_of_ascii sep <? 128)%nat = true ->
  Ascii.eqb c sep = false.
Proof.
  intros H Hsep. apply Nat.leb_le in H. apply Nat.ltb_lt in Hsep.
  destruct (Ascii.eqb_spec c sep); [subst; lia | reflexivity].
Qed.

Lemma box_bytes c1 c2 c3 :
  (nat_of_ascii c1 =? 226)%nat = true ->
  ((nat_of_ascii c2 =? 148)%nat || (nat_of_ascii c2 =? 149)%nat) = true ->
  ((128 <=? nat_of_ascii c3)%nat && (nat_of_ascii c3 <=? 191)%nat) = true ->
  (128 <=? nat_of_ascii c1)%nat = true /\
  (128 <=? nat_of_ascii c2)%nat = true /\
  (128 <=? nat_of_ascii c3)%nat = true.
Proof.
  intros H1 H2 H3. apply Nat.eqb_eq in H1.
  apply andb_true_iff in H3. destruct H3 as [H3 _].
  repeat split; [apply Nat.leb_le; lia | | exact H3].
  apply orb_true_iff in H2.
  destruct H2 as [H2 | H2]; apply Nat.eqb_eq in H2; apply Nat.leb_le; lia.
Qed.

Lemma split_cons_other sep c s :
  Ascii.eqb c sep = false ->
  exists h t,
    PyStr.split sep s = h :: t /\ PyStr.split sep (String c s) = String c h :: t.
Proof.
  intros Hc. cbn [PyStr.split]. rewrite Hc.
  destruct (PyStr.split sep s) as [| h t] eqn:E.
  - now destruct (split_nonempty sep s).
  - now exists h, t.
Qed.

Lemma plain_split sep s :
  (nat_of_ascii sep <? 128)%nat = true ->
  plain s -> Forall plain (PyStr.split sep s).
Proof.
  intros Hsep Hs.
  induction Hs as [| c s Hc Hs IH | c1 c2 c3 s H1 H2 H3 Hs IH].
  - repeat constructor.
  - cbn [PyStr.split]. destruct (Ascii.eqb c sep).
    + constructor; [constructor | exact IH].
    + destruct (PyStr.split sep s) as [| h t].
      * repeat constructor. exact Hc.
      * inversion IH; subst. constructor; [now apply plain_ascii | assumption].
  - destruct (box_bytes c1 c2 c3 H1 H2 H3) as (B1 & B2 & B3).
    destruct (split_cons_other sep c3 s (high_not_ascii c3 sep B3 Hsep))
      as (h & t & E & E3).
    destruct (split_cons_other sep c2 (String c3 s)
                (high_not_ascii c2 sep B2 Hsep)) as (h2 & t2 & E2 & E2').
    destruct (split_cons_other sep c1 (String c2 (String c3 s))
                (high_not_ascii c1 sep B1 Hsep)) as (h1 & t1 & E1 & E1').
    rewrite E1'. rewrite E2' in E1. injection E1 as <- <-.
    rewrite E3 in E2. injection E2 as <- <-.
    rewrite E in IH. inversion IH; subst.
    constructor; [now apply plain_box | assumption].
Qed.

Lemma plain_lstrip s : plain s -> plain (PyStr.lstrip s).
Proof.
  intros Hs. induction Hs as [| c s Hc Hs IH | c1 c2 c3 s H1 H2 H3 Hs IH].
  - constructor.
  - cbn [PyStr.lstrip]. destruct (PyStr.is_space c);
      [exact IH | now apply plain_ascii].
  - destruct (box_bytes c1 c2 c3 H1 H2 H3) as (B1 & _).
    cbn [PyStr.lstrip]. rewrite (high_not_space c1 B1). now apply plain_box.
Qed.

Lemma rstrip_nonspace c s :
  PyStr.is_space c = false ->
  PyStr.rstrip (String c s) = String c (PyStr.rstrip s).
Proof.
  intros Hc. cbn [PyStr.rstrip]. rewrite Hc. now destruct (PyStr.rstrip s).
Qed.

Lemma plain_rstrip s : plain s -> plain (PyStr.rstrip s).
Proof.
  intros Hs. induction Hs as [| c s Hc Hs IH | c1 c2 c3 s H1 H2 H3 Hs IH].
  - constructor.
  - cbn [PyStr.rstrip]. destruct (PyStr.rstrip s) as [| r0 r].
    + destruct (PyStr.is_space c); [constructor |].
      apply plain_ascii; [exact Hc | constructor].
    + now apply plain_ascii.
  - destruct (box_bytes c1 c2 c3 H1 H2 H3) as (B1 & B2 & B3).
    rewrite !rstrip_nonspace by now apply high_not_space.
    now apply plain_box.
Qed.

Lemma plain_strip s : plain s -> plain (PyStr.strip s).
Proof. intros Hs. unfold PyStr.strip. now apply plain_rstrip, plain_lstrip. Qed.

(** The first word of a text that begins with a character that is no white
    space. *)
Lemma words_nonspace c s :
  PyStr.is_space c = false ->
  exists h t,
    PyStr.words (String c s) = String c h :: t /\
    ((h = EmptyString /\ t = PyStr.words s) \/ PyStr.words s = h :: t).
Proof.
  intros Hc. destruct s as [| c' s].
  - cbn [PyStr.words]. rewrite Hc. exists EmptyString, []. auto.
  - rewrite words_cons_cons, Hc. destruct (PyStr.is_space c') eqn:Ec'.
    + exists EmptyString, (PyStr.words (String c' s)). auto.
    + destruct (PyStr.words (String c' s)) as [| h t] eqn:E.
      * now destruct (words_cons_nonspace c' s Ec').
      * exists h, t. auto.
Qed.

Lemma plain_words s : plain s -> Forall plain (PyStr.words s).
Proof.
  intros Hs. induction Hs as [| c s Hc Hs IH | c1 c2 c3 s H1 H2 H3 Hs IH].
  - constructor.
  - destruct (PyStr.is_space c) eqn:Ec.
    + destruct s; cbn [PyStr.words]; rewrite Ec; [constructor | exact IH].
    + destruct (words_nonspace c s Ec) as (h & t & -> & [[-> ->] | E]).
      * constructor; [| exact IH]. apply plain_ascii; [exact Hc | constructor].
      * rewrite E in IH. inversion IH; subst.
        constructor; [now apply plain_ascii | assumption].
  - destruct (box_bytes c1 c2 c3 H1 H2 H3) as (B1 & B2 & B3).
    destruct (words_nonspace c3 s (high_not_space c3 B3))
      as (h & t & E3 & Hht).
    assert (Hh : plain h /\ Forall plain t).
    { destruct Hht as [[-> ->] | E]; [split; [constructor | exact IH] |].
      rewrite E in IH. now inversion IH. }
    destruct Hh as [Hh Ht].
    destruct (words_nonspace c2 (String c3 s) (high_not_space c2 B2))
      as (h2 & t2 & E2 & [[-> ->] | E2']).
    { exfalso. revert E2. rewrite words_cons_cons, (high_not_space c2 B2),
        (high_not_space c3 B3), E3. discriminate. }
    rewrite E3 in E2'. injection E2' as <- <-.
    destruct (words_nonspace c1 (String c2 (String c3 s))
                (high_not_space c1 B1)) as (h1 & t1 & E1 & [[-> ->] | E1']).
    { exfalso. revert E1. rewrite words_cons_cons, (high_not_space c1 B1),
        (high_not_space c2 B2), E2. discriminate. }
    rewrite E2 in E1'. injection E1' as <- <-.
    rewrite E1. constructor; [now apply plain_box | exact Ht].
Qed.

Lemma plain_lines_check lines :
  forallb plain_lineb lines = true -> Forall plain_line lines.
Proof.
  induction lines as [| l lines IH]; [constructor |].
  cbn [forallb]. intros H. apply andb_true_iff in H. destruct H as [Hl H].
  unfold plain_lineb in Hl. apply andb_true_iff in Hl.
  destruct Hl as [Hp Hlen]. apply Nat.leb_le in Hlen.
  constructor; [split; [now apply plainb_plain | exact Hlen] | now apply IH].
Qed.

(** The pieces [split], [strip] and [split()] cut are no longer than the
    text. *)
Lemma split_length sep s :
  Forall (fun piece => String.length piece <= String.length s)
    (PyStr.split sep s).
Proof.
  induction s as [| c s IH]; [constructor; [cbn; lia | constructor] |].
  assert (IH' : Forall (fun piece => String.length piece <= String.length s)
                  (PyStr.split sep s)) by exact IH.
  apply (Forall_impl (fun piece => String.length piece <= S (String.length s)))
    in IH; [| intros; lia].
  cbn [PyStr.split String.length]. destruct (Ascii.eqb c sep).
  - constructor; [cbn; lia | exact IH].
  - destruct (PyStr.split sep s) as [| h t].
    + constructor; [cbn; lia | constructor].
    + inversion IH; subst. inversion IH'; subst.
      constructor; [cbn [String.length]; lia | assumption].
Qed.

Lemma lstrip_length s : String.length (PyStr.lstrip s) <= String.length s.
Proof.
  induction s as [| c s IH]; [cbn; lia |].
  cbn [PyStr.lstrip]. destruct (PyStr.is_space c); cbn [String.length]; lia.
Qed.

Lemma rstrip_length s : String.length (PyStr.rstrip s) <= String.length s.
Proof.
  induction s as [| c s IH]; [cbn; lia |].
  cbn [PyStr.rstrip]. destruct (PyStr.rstrip s) as [| r0 r].
  - destruct (PyStr.is_space c); cbn [String.length]; lia.
  - cbn [String.length] in *. lia.
Qed.

Lemma strip_length s : String.length (PyStr.strip s) <= String.length s.
Proof.
  unfold PyStr.strip. pose proof (rstrip_length (PyStr.lstrip s)).
  pose proof (lstrip_length s). lia.
Qed.

Lemma words_length s :
  Forall (fun w => String.length w <= String.length s) (PyStr.words s).
Proof.
  induction s as [| c s IH]; [constructor |].
  assert (IH' : Forall (fun w => String.length w <= S (String.length s))
                  (PyStr.words s))
    by (eapply Forall_impl; [| exact IH]; intros; cbn beta in *; lia).
  destruct (PyStr.is_space c) eqn:Ec.
  - destruct s; cbn [PyStr.words]; rewrite Ec; [constructor | exact IH'].
  - destruct (words_nonspace c s Ec) as (h & t & -> & [[-> ->] | E]).
    + constructor; [cbn; lia | exact IH'].
    + rewrite E in IH, IH'. inversion IH; subst. inversion IH'; subst.
      constructor; [cbn [String.length]; lia | assumption].
Qed.

(** ** Status parsing *)

Section Poller.

Variable fd : Z.
Variable io : poll_io.

Lemma get_headset_state_answered data :
  answered io data ->
  snd (get_headset_state fd io) =
  let response := firstn 128 data in
  if (List.length response <? 16)%nat then Ok None
  else match nth_error response 15 with
       | Some b =>
           let status_byte := Byte.to_N b in
           if (status_byte =? 1)%N then Ok (Some OFF)
           else if (status_byte =? 8)%N || (status_byte =? 2)%N
                then Ok (Some ON)
                else Ok None
       | None => Ok None
       end.
Proof.
  intros [[n Hw] [[t [Hs Ht]] Hr]].
  apply N.leb_le in Ht.
  unfold get_headset_state, os_write, select_readable, os_read, perform, index.
  rewrite Hw, Hs, Hr, Ht. cbn -[firstn nth_error Nat.ltb N.eqb Byte.to_N].
  destruct (List.length (firstn 128 data) <? 16)%nat eqn:Hlen;
    cbn -[firstn nth_error Nat.ltb N.eqb Byte.to_N]; [reflexivity |].
  destruct (nth_error (firstn 128 data) 15) as [b |] eqn:Hb;
    cbn -[firstn nth_error Nat.ltb N.eqb Byte.to_N].
  - unfold HEADSET_OFFLINE, HEADSET_ONLINE, HEADSET_CHARGING.
    destruct (Byte.to_N b =? 1)%N; [reflexivity |].
    destruct ((Byte.to_N b =? 8)%N || (Byte.to_N b =? 2)%N); reflexivity.
  - reflexivity.
Qed.

End Poller.

Lemma to_N_eqb_1 b : (Byte.to_N b =? 1)%N = Byte.eqb b x01.
Proof. destruct b; reflexivity. Qed.

Lemma to_N_eqb_8 b : (Byte.to_N b =? 8)%N = Byte.eqb b x08.
Proof. destruct b; reflexivity. Qed.

Lemma to_N_eqb_2 b : (Byte.to_N b =? 2)%N = Byte.eqb b x02.
Proof. destruct b; reflexivity. Qed.

Lemma byte_eqb_neq (a b : byte) : a <> b -> Byte.eqb a b = false.
Proof.
  intros Hne. destruct (Byte.eqb a b) eqn:E; [| reflexivity].
  apply Byte.byte_dec_bl in E. contradiction.
Qed.

(** C2.  When the node answers, the state [get_headset_state] returns is
    determined by the bytes read: with at least 16 of them, the byte at
    offset 15 gives OFF for 0x01, ON for 0x08 and for 0x02, and [None] for
    every other value; with fewer than 16 the result is [None]. *)
Theorem get_headset_state_status_byte :
  forall (fd : Z) (io : poll_io) (data : list byte),
    answered io data ->
    let response := firstn 128 data in
    (16 <= List.length response ->
     exists b,
       nth_error response 15 = Some b /\
       (b = x01 -> snd (get_headset_state fd io) = Ok (Some OFF)) /\
       (b = x08 \/ b = x02 -> snd (get_headset_state fd io) = Ok (Some ON)) /\
       (b <> x01 -> b <> x08 -> b <> x02 ->
        snd (get_headset_state fd io) = Ok None)) /\
    (List.length response < 16 -> snd (get_headset_state fd io) = Ok None).
Proof.
  intros fd io data Hans response.
  rewrite (get_headset_state_answered fd io data Hans). fold response.
  cbv zeta. split.
  - intros Hlen.
    destruct (nth_error response 15) as [b |] eqn:Hb.
    + exists b. split; [reflexivity |].
      apply Nat.ltb_ge in Hlen. rewrite Hlen.
      rewrite to_N_eqb_1, to_N_eqb_8, to_N_eqb_2.
      repeat split.
      * intros ->. reflexivity.
      * intros [-> | ->]; reflexivity.
      * intros H1 H8 H2.
        now rewrite (byte_eqb_neq _ _ H1), (byte_eqb_neq _ _ H8),
          (byte_eqb_neq _ _ H2).
    + apply nth_error_None in Hb. lia.
  - intros Hlen. apply Nat.ltb_lt in Hlen. now rewrite Hlen.
Qed.


Lemma answering_answered data : answered (answering data) data.
Proof.
  repeat split; [exists 31; reflexivity |].
  exists 3%N. split; [reflexivity | discriminate].
Qed.


(** ** Timeout *)


(** C8.  After the command is written, a node that does not become readable
    within 500 ms makes [get_headset_state] return [None]: the call waits
    in [select] for the 500 ms of the timeout and no longer, and does not
    read. *)
Theorem get_headset_state_timeout :
  forall (fd : Z) (io : poll_io) (n : nat) (r : readiness),
    io_write io = Ok n ->
    io_select io = Ok r ->
    silent_for 500 r ->
    get_headset_state fd io =
    ([OsWrite fd POLL_COMMAND; Select fd 500 500], Ok None).
Proof.
  intros fd io n r Hw Hs Hsilent.
  unfold get_headset_state, os_write, select_readable, perform.
  rewrite Hw, Hs.
  destruct r as [t |]; simpl in Hsilent.
  - apply N.leb_gt in Hsilent. rewrite Hsilent. reflexivity.
  - reflexivity.
Qed.

(** ** Traces of the main loop *)

Lemma key_events_app tr1 tr2 :
  key_events (tr1 ++ tr2) = key_events tr1 ++ key_events tr2.
Proof. apply filter_app. Qed.

Lemma polls_of_app tr1 tr2 : polls_of (tr1 ++ tr2) = polls_of tr1 ++ polls_of tr2.
Proof. apply flat_map_app. Qed.

Lemma switches_of_app tr1 tr2 :
  switches_of (tr1 ++ tr2) = switches_of tr1 ++ switches_of tr2.
Proof. apply flat_map_app. Qed.

Lemma set_defaults_app tr1 tr2 :
  set_defaults (tr1 ++ tr2) = set_defaults tr1 ++ set_defaults tr2.
Proof. apply filter_app. Qed.

Lemma polls_of_key_events tr : polls_of (key_events tr) = polls_of tr.
Proof.
  induction tr as [| ev tr IH]; [reflexivity |].
  destruct ev; simpl; rewrite ?IH; reflexivity.
Qed.

Lemma switches_of_key_events tr : switches_of (key_events tr) = switches_of tr.
Proof.
  induction tr as [| ev tr IH]; [reflexivity |].
  destruct ev; simpl; rewrite ?IH; reflexivity.
Qed.

Section Avoids.

Variable P : event -> bool.

Lemma avoids_ret {A} (a : A) : avoids P (ret a).
Proof. reflexivity. Qed.

Lemma avoids_raise {A} e : avoids P (@raise A e).
Proof. reflexivity. Qed.

Lemma avoids_perform {A} ev (r : result A) :
  P ev = false -> avoids P (perform ev r).
Proof. unfold avoids; simpl. now intros ->. Qed.

Lemma avoids_bind {A B} (m : M A) (k : A -> M B) :
  avoids P m -> (forall a, avoids P (k a)) -> avoids P (bind m k).
Proof.
  unfold avoids. intros Hm Hk. rewrite fst_bind, filter_app, Hm.
  destruct (snd m); [apply Hk | reflexivity].
Qed.

Lemma avoids_try_except {A} (body : M A) catches handler :
  avoids P body -> (forall e, avoids P (handler e)) ->
  avoids P (try_except body catches handler).
Proof.
  unfold avoids. intros Hb Hh. rewrite fst_try_except, filter_app, Hb.
  destruct (snd body) as [a | e]; [reflexivity |].
  destruct (catches e); [apply Hh | reflexivity].
Qed.

End Avoids.

Ltac avoids_step :=
  first
    [ apply avoids_ret
    | apply avoids_raise
    | apply avoids_perform; reflexivity
    | apply avoids_bind; [| intros ?]
    | apply avoids_try_except; [| intros ?]
    | match goal with
      | |- avoids _ (if ?b then _ else _) => destruct b
      | |- avoids _ (match ?x with _ => _ end) => destruct x
      end ].

Section Properties.

Context {T : PyText}.

Lemma get_headset_state_avoids P fd io :
  (forall ev, is_key ev = false -> is_set_default ev = false -> P ev = false) ->
  avoids P (get_headset_state fd io).
Proof.
  intros HP.
  unfold get_headset_state, os_write, select_readable, os_read, index, print,
    emit.
  repeat first [ apply avoids_perform; apply HP; reflexivity | avoids_step ].
Qed.

Lemma find_sink_id_loop_silent name_pattern lines :
  forall in_sinks_section,
    fst (find_sink_id_loop name_pattern in_sinks_section lines) = [].
Proof.
  induction lines as [| line rest IH]; intros b; [reflexivity |].
  cbn [find_sink_id_loop].
  repeat match goal with
         | |- fst (if ?c then _ else _) = [] => destruct c
         end; try apply IH; try reflexivity.
  rewrite fst_bind.
  destruct (rev _) as [| w ws]; simpl; [reflexivity |].
  destruct (text_isdigit w); [destruct (text_int w); reflexivity | apply IH].
Qed.

Lemma find_sink_id_avoids P name_pattern status :
  (forall ev, is_key ev = false -> is_set_default ev = false -> P ev = false) ->
  avoids P (find_sink_id name_pattern status).
Proof.
  intros HP. unfold find_sink_id, print, emit.
  apply avoids_try_except.
  - apply avoids_bind; [apply avoids_perform, HP; reflexivity |].
    intros stdout. unfold avoids. now rewrite find_sink_id_loop_silent.
  - intros e. apply avoids_bind; [| intros; apply avoids_ret].
    apply avoids_perform, HP; reflexivity.
Qed.

Lemma is_key_only ev :
  is_key ev = false -> is_set_default ev = false -> is_key ev = false.
Proof. auto. Qed.

Lemma is_set_default_only ev :
  is_key ev = false -> is_set_default ev = false -> is_set_default ev = false.
Proof. auto. Qed.

Lemma get_headset_state_quiet fd io :
  key_events (fst (get_headset_state fd io)) = [].
Proof. apply (get_headset_state_avoids is_key fd io is_key_only). Qed.

Lemma switch_audio_key_events pattern friendly io :
  key_events (fst (switch_audio pattern friendly io)) =
  [SwitchCalled pattern friendly].
Proof.
  unfold switch_audio, emit. rewrite fst_bind. cbn [fst snd app].
  unfold key_events. cbn [filter is_key]. f_equal.
  apply avoids_bind; [apply find_sink_id_avoids, is_key_only |].
  intros [id |]; unfold print, emit; repeat avoids_step.
Qed.

Lemma state_ne_false a b : state_ne a b = false -> b = a.
Proof. destruct a as [[] |], b as [[] |]; simpl; congruence. Qed.

Lemma state_ne_true a b : state_ne a b = true -> b <> a.
Proof. destruct a as [[] |], b as [[] |]; simpl; congruence. Qed.

Lemma loop_body_events fd last_state c :
  match snd (get_headset_state fd (c_poll c)) with
  | Ok o =>
      key_events (fst (loop_body fd last_state c)) =
      PollReturned o :: fired last_state o /\
      (forall last_state',
          snd (loop_body fd last_state c) = Ok last_state' ->
          last_state' = next_state last_state o)
  | Raise e =>
      key_events (fst (loop_body fd last_state c)) = [] /\
      snd (loop_body fd last_state c) = Raise e
  end.
Proof.
  unfold loop_body. rewrite fst_bind, snd_bind, key_events_app.
  rewrite get_headset_state_quiet.
  destruct (snd (get_headset_state fd (c_poll c))) as [o | e];
    [| split; reflexivity].
  cbn [app]. rewrite fst_bind, snd_bind. cbn [emit fst snd app].
  unfold key_events at 1. cbn [filter is_key]. fold (key_events).
  rewrite fst_bind, snd_bind, key_events_app.
  assert (Hsleep : forall l : option HeadsetState,
             key_events
               (fst (bind (perform (Sleep POLL_INTERVAL) (c_sleep c))
                       (fun _ => ret l))) = []).
  { intros l. apply avoids_bind; [now apply avoids_perform |].
    intros; apply avoids_ret. }
  assert (Hres : forall l l' : option HeadsetState,
             snd (bind (perform (Sleep POLL_INTERVAL) (c_sleep c))
                    (fun _ => ret l)) = Ok l' -> l' = l).
  { intros l l'. rewrite snd_bind. cbn [perform snd].
    destruct (c_sleep c); cbn; congruence. }
  destruct o as [s |]; cbn [fired next_state].
  - destruct (state_ne (Some s) last_state) eqn:Hne.
    + rewrite fst_bind, snd_bind, fst_bind, snd_bind. cbn [print emit fst snd app].
      unfold key_events at 1. cbn [filter is_key]. fold key_events.
      rewrite key_events_app.
      set (sw := match s with ON => _ | OFF => _ end).
      assert (Hsw : key_events (fst sw) = [switch_event s])
        by (subst sw; destruct s; apply switch_audio_key_events).
      rewrite Hsw.
      destruct (snd sw) as [u | e]; cbn [ret fst snd app key_events filter].
      * rewrite Hsleep. split; [reflexivity |]. intros l'. apply Hres.
      * split; [reflexivity | discriminate].
    + cbn [ret fst snd app]. rewrite Hsleep. split; [reflexivity |].
      intros l' Hl'. apply Hres in Hl'. subst l'.
      now apply state_ne_false.
  - cbn [ret fst snd app]. rewrite Hsleep. split; [reflexivity |].
    intros l'. apply Hres.
Qed.

(** The polls and switches of a run are the script of its poll outcomes,
    whether the loop is still running or an exception left it. *)
Lemma main_loop_script fd cycles :
  forall last_state,
    key_events (fst (main_loop fd last_state cycles)) =
    script last_state (polls_of (fst (main_loop fd last_state cycles))).
Proof.
  induction cycles as [| c rest IH]; intros last_state; [reflexivity |].
  cbn [main_loop]. rewrite fst_bind, key_events_app, polls_of_app.
  pose proof (loop_body_events fd last_state c) as Hbody.
  rewrite <- (polls_of_key_events (fst (loop_body fd last_state c))).
  destruct (snd (get_headset_state fd (c_poll c))) as [o | e].
  - destruct Hbody as [Hkey Hnext]. rewrite Hkey.
    assert (Hpolls : polls_of (PollReturned o :: fired last_state o) = [o]).
    { destruct o as [s |]; [| reflexivity].
      unfold fired. destruct (state_ne (Some s) last_state); reflexivity. }
    rewrite Hpolls. cbn [app script]. f_equal. f_equal.
    destruct (snd (loop_body fd last_state c)) as [l' |] eqn:Hres.
    + rewrite (Hnext l' eq_refl). apply IH.
    + reflexivity.
  - destruct Hbody as [Hkey Hres]. rewrite Hkey, Hres. reflexivity.
Qed.

Lemma runs_cons_cons s y l :
  runs (s :: y :: l) =
  if HeadsetState_eqb s y then runs (y :: l) else s :: runs (y :: l).
Proof. reflexivity. Qed.

Lemma runs_cons s l : runs (s :: l) = s :: tl (runs (s :: l)).
Proof.
  revert s. induction l as [| y l IH]; intros s; [reflexivity |].
  rewrite runs_cons_cons, (IH y).
  destruct (HeadsetState_eqb s y) eqn:E; [| reflexivity].
  destruct s, y; try discriminate; reflexivity.
Qed.

Lemma tl_runs_cons s y l :
  tl (runs (s :: y :: l)) =
  if HeadsetState_eqb s y then tl (runs (y :: l)) else runs (y :: l).
Proof.
  rewrite runs_cons_cons.
  destruct (HeadsetState_eqb s y); reflexivity.
Qed.

Lemma switches_of_cons_poll o tr :
  switches_of (PollReturned o :: tr) = switches_of tr.
Proof. reflexivity. Qed.

Lemma switches_of_cons_switch s tr :
  switches_of (switch_event s :: tr) = switch_for s :: switches_of tr.
Proof. destruct s; reflexivity. Qed.

Lemma switches_of_script_from s os :
  switches_of (script (Some s) os) =
  map switch_for (tl (runs (s :: definitive os))).
Proof.
  revert s. induction os as [| o os IH]; intros s; [reflexivity |].
  destruct o as [y |].
  - cbn [script next_state]. rewrite switches_of_cons_poll.
    change (definitive (Some y :: os)) with (y :: definitive os).
    rewrite tl_runs_cons. unfold fired. cbn [state_ne].
    destruct (HeadsetState_eqb y s) eqn:E.
    + assert (s = y) by (destruct s, y; try discriminate; reflexivity).
      subst y. rewrite E. cbn [negb app]. apply IH.
    + assert (E' : HeadsetState_eqb s y = false)
        by (destruct s, y; try discriminate; reflexivity).
      rewrite E'. cbn [negb app]. rewrite switches_of_cons_switch, IH.
      transitivity (map switch_for (y :: tl (runs (y :: definitive os))));
        [reflexivity | now rewrite <- runs_cons].
  - cbn [script fired next_state app]. rewrite switches_of_cons_poll.
    apply IH.
Qed.

Lemma switches_of_script os :
  switches_of (script None os) = map switch_for (runs (definitive os)).
Proof.
  induction os as [| o os IH]; [reflexivity |].
  destruct o as [y |].
  - cbn [script fired next_state state_ne app].
    rewrite switches_of_cons_poll, switches_of_cons_switch.
    change (definitive (Some y :: os)) with (y :: definitive os).
    rewrite switches_of_script_from.
    transitivity (map switch_for (y :: tl (runs (y :: definitive os))));
      [reflexivity | now rewrite <- runs_cons].
  - cbn [script fired next_state app]. rewrite switches_of_cons_poll.
    apply IH.
Qed.

Lemma main_loop_switches fd cycles :
  switches_of (fst (main_loop fd None cycles)) =
  map switch_for (runs (definitive (polls_of (fst (main_loop fd None cycles))))).
Proof.
  rewrite <- switches_of_key_events, main_loop_script.
  apply switches_of_script.
Qed.

(** In calm iterations every poll returns the outcome the node was set to
    give, so every sequence of poll outcomes is the sequence of some run. *)
Lemma calm_cycle_poll fd listing o :
  snd (get_headset_state fd (c_poll (calm_cycle listing o))) = Ok o.
Proof. destruct o as [[] |]; reflexivity. Qed.

(** ** Exceptions that leave a computation *)

Section RaisesOnly.

Variable Q : exn -> bool.

Lemma raises_only_ret {A} (a : A) : raises_only Q (ret a).
Proof. exact I. Qed.

Lemma raises_only_raise {A} e : Q e = true -> raises_only Q (@raise A e).
Proof. intros H; exact H. Qed.

Lemma raises_only_bind {A B} (m : M A) (k : A -> M B) :
  raises_only Q m -> (forall a, raises_only Q (k a)) ->
  raises_only Q (bind m k).
Proof.
  unfold raises_only. rewrite snd_bind. intros Hm Hk.
  destruct (snd m); [apply Hk | exact Hm].
Qed.

End RaisesOnly.

Lemma raises_only_perform {A} ev (r : result A) :
  uninterrupted r -> raises_only is_Exception (perform ev r).
Proof. destruct r; intros H; exact H. Qed.

(** A handler for [Exception] that returns turns a body that raises
    nothing else into a computation that returns. *)
Lemma try_except_returns {A} (body : M A) (handler : exn -> M A) :
  raises_only is_Exception body ->
  (forall e, exists a, snd (handler e) = Ok a) ->
  exists a, snd (try_except body is_Exception handler) = Ok a.
Proof.
  unfold raises_only. rewrite snd_try_except. intros Hb Hh.
  destruct (snd body) as [a | e]; [now exists a |].
  rewrite Hb. apply Hh.
Qed.

Lemma get_headset_state_returns fd io :
  uninterrupted (io_write io) ->
  uninterrupted (io_select io) ->
  uninterrupted (io_read io) ->
  exists o, snd (get_headset_state fd io) = Ok o.
Proof.
  intros Hw Hs Hr. unfold get_headset_state.
  apply try_except_returns; [| intros e; now exists None].
  apply raises_only_bind; [now apply raises_only_perform |]. intros _.
  apply raises_only_bind.
  { unfold select_readable. destruct (io_select io) as [[t |] | e];
      [destruct (t <=? 500)%N | |]; now apply raises_only_perform. }
  intros r. destruct (negb r); [apply raises_only_ret |].
  apply raises_only_bind.
  { unfold os_read. apply raises_only_perform.
    destruct (io_read io); [exact I | exact Hr]. }
  intros response.
  destruct (List.length response <? 16)%nat; [apply raises_only_ret |].
  apply raises_only_bind.
  { unfold index. destruct (nth_error response 15);
      [apply raises_only_ret | now apply raises_only_raise]. }
  intros b. repeat match goal with
                   | |- raises_only _ (if ?c then _ else _) => destruct c
                   end; apply raises_only_ret.
Qed.

Lemma find_sink_id_loop_raises name_pattern lines :
  forall in_sinks_section,
    raises_only is_Exception
      (find_sink_id_loop name_pattern in_sinks_section lines).
Proof.
  induction lines as [| line rest IH]; intros b; [exact I |].
  cbn [find_sink_id_loop].
  repeat match goal with
         | |- raises_only _ (if ?c then _ else _) => destruct c
         end; try apply IH; try exact I.
  apply raises_only_bind.
  - destruct (rev _); [now apply raises_only_raise | apply raises_only_ret].
  - intros w. destruct (text_isdigit w); [| apply IH].
    destruct (text_int w); [exact I | reflexivity].
Qed.

Lemma find_sink_id_returns name_pattern status :
  uninterrupted status ->
  exists r, snd (find_sink_id name_pattern status) = Ok r.
Proof.
  intros Hst. unfold find_sink_id.
  apply try_except_returns; [| intros e; now exists None].
  apply raises_only_bind; [now apply raises_only_perform |].
  intros stdout. apply find_sink_id_loop_raises.
Qed.

Lemma switch_audio_returns pattern friendly io :
  uninterrupted (io_status io) ->
  (exists code, io_set_default io = Ok code) ->
  snd (switch_audio pattern friendly io) = Ok tt.
Proof.
  intros Hst [code Hcode]. unfold switch_audio.
  rewrite snd_bind. cbn [emit snd]. rewrite snd_bind.
  destruct (find_sink_id_returns pattern (io_status io) Hst) as [r ->].
  destruct r as [id |]; [| reflexivity].
  rewrite snd_bind. cbn [print emit snd]. rewrite snd_bind, Hcode.
  reflexivity.
Qed.

(** Containment: an iteration with handled errors ends normally, with the
    last-known state the poll outcome calls for. *)
Lemma loop_body_returns fd last_state c :
  handled_errors c ->
  exists o,
    snd (get_headset_state fd (c_poll c)) = Ok o /\
    snd (loop_body fd last_state c) = Ok (next_state last_state o).
Proof.
  intros (Hw & Hs & Hr & Hst & Hsd & Hsleep).
  destruct (get_headset_state_returns fd (c_poll c) Hw Hs Hr) as [o Ho].
  exists o. split; [exact Ho |].
  unfold loop_body. rewrite snd_bind, Ho, snd_bind. cbn [emit snd].
  rewrite snd_bind.
  assert (Hend : forall l : option HeadsetState,
             snd (bind (perform (Sleep POLL_INTERVAL) (c_sleep c))
                    (fun _ => ret l)) = Ok l).
  { intros l. rewrite snd_bind, Hsleep. reflexivity. }
  destruct o as [s |]; cbn [next_state]; [| apply Hend].
  destruct (state_ne (Some s) last_state) eqn:Hne.
  - rewrite snd_bind. cbn [print emit snd]. rewrite snd_bind.
    assert (Hsw : snd match s with
                      | ON => switch_audio HEADPHONE_SINK_NAME "Headphones" (c_switch c)
                      | OFF => switch_audio SPEAKER_SINK_NAME "Speakers" (c_switch c)
                      end = Ok tt)
      by (destruct s; now apply switch_audio_returns).
    set (sw := match s with ON => _ | OFF => _ end) in *.
    rewrite Hsw. cbn [ret snd]. apply Hend.
  - cbn [ret snd]. rewrite Hend. f_equal. now apply state_ne_false.
Qed.

(** With handled errors only, the loop is still running after any number
    of iterations and has polled once in each. *)
Lemma main_loop_keeps_running fd cycles :
  Forall handled_errors cycles ->
  forall last_state,
    (exists last_state',
        snd (main_loop fd last_state cycles) = Ok last_state') /\
    List.length (polls_of (fst (main_loop fd last_state cycles))) =
    List.length cycles.
Proof.
  induction 1 as [| c rest Hc Hrest IH]; intros last_state.
  - split; [now exists last_state | reflexivity].
  - cbn [main_loop]. rewrite snd_bind, fst_bind, polls_of_app, length_app.
    destruct (loop_body_returns fd last_state c Hc) as [o [Ho Hret]].
    pose proof (loop_body_events fd last_state c) as Hev.
    rewrite Ho in Hev. destruct Hev as [Hkey _].
    rewrite <- (polls_of_key_events (fst (loop_body fd last_state c))), Hkey.
    rewrite Hret.
    destruct (IH (next_state last_state o)) as [Hrun Hlen].
    split; [exact Hrun |].
    rewrite Hlen. cbn [polls_of flat_map app List.length].
    replace (flat_map _ (fired last_state o)) with (@nil (option HeadsetState));
      [reflexivity |].
    destruct o as [s |]; [| reflexivity].
    unfold fired. destruct (state_ne (Some s) last_state); reflexivity.
Qed.

Lemma calm_cycle_handled listing o : handled_errors (calm_cycle listing o).
Proof.
  destruct o as [[] |]; repeat split; try (now exists 0%Z).
Qed.

Lemma loop_body_polls fd last_state c o :
  snd (get_headset_state fd (c_poll c)) = Ok o ->
  polls_of (fst (loop_body fd last_state c)) = [o].
Proof.
  intros Ho. pose proof (loop_body_events fd last_state c) as Hev.
  rewrite Ho in Hev. destruct Hev as [Hkey _].
  rewrite <- polls_of_key_events, Hkey.
  destruct o as [s |]; [| reflexivity].
  unfold fired. destruct (state_ne (Some s) last_state); reflexivity.
Qed.

Lemma loop_body_switches fd last_state c o :
  snd (get_headset_state fd (c_poll c)) = Ok o ->
  switches_of (fst (loop_body fd last_state c)) =
  switches_of (fired last_state o).
Proof.
  intros Ho. pose proof (loop_body_events fd last_state c) as Hev.
  rewrite Ho in Hev. destruct Hev as [Hkey _].
  rewrite <- switches_of_key_events, Hkey. reflexivity.
Qed.

Lemma main_loop_calm_polls fd listing os :
  forall last_state,
    polls_of (fst (main_loop fd last_state (map (calm_cycle listing) os))) = os.
Proof.
  induction os as [| o os IH]; intros last_state; [reflexivity |].
  cbn [map main_loop]. rewrite fst_bind, polls_of_app.
  destruct (loop_body_returns fd last_state (calm_cycle listing o)
              (calm_cycle_handled listing o)) as [o' [Ho' Hret]].
  rewrite calm_cycle_poll in Ho'. injection Ho' as <-.
  rewrite (loop_body_polls fd last_state _ o (calm_cycle_poll fd listing o)).
  rewrite Hret, IH. reflexivity.
Qed.

(** ** Edge triggering *)

(** C1.  In every run of the loop from the initial [None], the calls of
    [switch_audio] are one for each maximal run of equal states among the
    poll outcomes that are a state (each such run begins after a different
    last-known state, the first after the initial [None]), with the sink of
    that state; every sequence of poll outcomes is the sequence of some
    run; a poll whose outcome is the last-known state calls no switch and
    keeps the last-known state; a poll whose outcome is [None] calls no
    switch and keeps the last-known state. *)
Theorem main_loop_edge_triggered :
  forall (fd : Z) (cycles : list cycle_io),
    let tr := fst (main_loop fd None cycles) in
    switches_of tr = map switch_for (runs (definitive (polls_of tr))) /\
    (forall listing os,
        polls_of (fst (main_loop fd None (map (calm_cycle listing) os))) = os) /\
    (forall c s,
        snd (get_headset_state fd (c_poll c)) = Ok (Some s) ->
        switches_of (fst (loop_body fd (Some s) c)) = [] /\
        forall last_state',
          snd (loop_body fd (Some s) c) = Ok last_state' ->
          last_state' = Some s) /\
    (forall last_state c,
        snd (get_headset_state fd (c_poll c)) = Ok None ->
        switches_of (fst (loop_body fd last_state c)) = [] /\
        forall last_state',
          snd (loop_body fd last_state c) = Ok last_state' ->
          last_state' = last_state).
Proof.
  intros fd cycles tr. split; [apply main_loop_switches |].
  split; [intros listing os; apply main_loop_calm_polls |].
  split.
  - intros c s Ho. split.
    + rewrite (loop_body_switches fd (Some s) c _ Ho).
      unfold fired. cbn [state_ne]. destruct s; reflexivity.
    + intros l' Hl'. pose proof (loop_body_events fd (Some s) c) as Hev.
      rewrite Ho in Hev. destruct Hev as [_ Hnext]. apply (Hnext l' Hl').
  - intros last_state c Ho. split.
    + rewrite (loop_body_switches fd last_state c _ Ho). reflexivity.
    + intros l' Hl'. pose proof (loop_body_events fd last_state c) as Hev.
      rewrite Ho in Hev. destruct Hev as [_ Hnext]. apply (Hnext l' Hl').
Qed.

(** C3.  A run from the initial [None] whose poll outcomes are Unknown,
    Offline, Offline, Online, Unknown, Offline calls [switch_audio] three
    times: for the speakers after the first Offline, for the headphones
    after the Online, for the speakers after the last Offline; nothing is
    called after the leading Unknown, the second Offline and the Unknown in
    the middle. *)
Theorem main_loop_scenario :
  forall (fd : Z) (cycles : list cycle_io),
    polls_of (fst (main_loop fd None cycles)) =
    [None; Some OFF; Some OFF; Some ON; None; Some OFF] ->
    key_events (fst (main_loop fd None cycles)) =
    [ PollReturned None;
      PollReturned (Some OFF); SwitchCalled SPEAKER_SINK_NAME "Speakers";
      PollReturned (Some OFF);
      PollReturned (Some ON); SwitchCalled HEADPHONE_SINK_NAME "Headphones";
      PollReturned None;
      PollReturned (Some OFF); SwitchCalled SPEAKER_SINK_NAME "Speakers" ] /\
    switches_of (fst (main_loop fd None cycles)) =
    [ (SPEAKER_SINK_NAME, "Speakers");
      (HEADPHONE_SINK_NAME, "Headphones");
      (SPEAKER_SINK_NAME, "Speakers") ].
Proof.
  intros fd cycles Hpolls.
  assert (Hkey := main_loop_script fd cycles None). rewrite Hpolls in Hkey.
  split; [exact Hkey |].
  rewrite <- switches_of_key_events, Hkey. reflexivity.
Qed.

(** ** A switch that finds no sink *)

Lemma switch_audio_not_found pattern friendly io :
  snd (find_sink_id pattern (io_status io)) = Ok None ->
  switch_audio pattern friendly io =
  (SwitchCalled pattern friendly ::
     fst (find_sink_id pattern (io_status io)) ++ [Print (LogNoSink pattern)],
   Ok tt).
Proof.
  unfold switch_audio. intros Hnone.
  destruct (find_sink_id pattern (io_status io)) as [trf rf].
  cbn in Hnone. subst rf. reflexivity.
Qed.

Lemma switch_audio_found pattern friendly io id :
  snd (find_sink_id pattern (io_status io)) = Ok (Some id) ->
  switch_audio pattern friendly io =
  (SwitchCalled pattern friendly ::
     fst (find_sink_id pattern (io_status io)) ++
     [Print (LogSwitching friendly id);
      Run ["wpctl"; "set-default"; PyStr.str id]],
   match io_set_default io with
   | Ok _ => Ok tt
   | Raise e => Raise e
   end).
Proof.
  unfold switch_audio. intros Hsome.
  destruct (find_sink_id pattern (io_status io)) as [trf rf].
  cbn in Hsome. subst rf. cbn. destruct (io_set_default io); reflexivity.
Qed.

(** The iteration of a state change, event by event. *)
Lemma loop_body_changed fd last_state c s :
  snd (get_headset_state fd (c_poll c)) = Ok (Some s) ->
  state_ne (Some s) last_state = true ->
  let sw := switch_audio (fst (switch_for s)) (snd (switch_for s)) (c_switch c) in
  loop_body fd last_state c =
  (fst (get_headset_state fd (c_poll c)) ++
     PollReturned (Some s) :: Print (LogStateChanged last_state (Some s)) ::
     fst sw ++ match snd sw with
               | Ok _ => [Sleep POLL_INTERVAL]
               | Raise _ => []
               end,
   match snd sw with
   | Ok _ => match c_sleep c with
             | Ok _ => Ok (Some s)
             | Raise e => Raise e
             end
   | Raise e => Raise e
   end).
Proof.
  intros Ho Hne sw. unfold loop_body.
  destruct (get_headset_state fd (c_poll c)) as [trg rg].
  cbn in Ho. subst rg. cbn [bind emit fst snd]. rewrite Hne.
  assert (Hsw : match s with
                | ON => switch_audio HEADPHONE_SINK_NAME "Headphones" (c_switch c)
                | OFF => switch_audio SPEAKER_SINK_NAME "Speakers" (c_switch c)
                end = sw) by (destruct s; reflexivity).
  set (m := match s with ON => _ | OFF => _ end) in *.
  rewrite Hsw. clear Hsw m.
  destruct sw as [trs [u | e]]; cbn.
  - destruct (c_sleep c); cbn; rewrite <- ?app_assoc; reflexivity.
  - rewrite app_nil_r. reflexivity.
Qed.

(** C7.  When a state change calls the switch and the lookup finds no
    sink, the warning is printed, no [wpctl set-default] is run, and the
    iteration still ends with the new state as last-known state; the next
    poll with the same outcome then calls no switch, so that over the two
    iterations the switch is called once. *)
Theorem missed_switch_not_retried :
  forall (fd : Z) (last_state : option HeadsetState) (c c' : cycle_io)
         (s : HeadsetState),
    snd (get_headset_state fd (c_poll c)) = Ok (Some s) ->
    last_state <> Some s ->
    snd (find_sink_id (fst (switch_for s)) (io_status (c_switch c))) = Ok None ->
    c_sleep c = Ok tt ->
    snd (get_headset_state fd (c_poll c')) = Ok (Some s) ->
    snd (loop_body fd last_state c) = Ok (Some s) /\
    switches_of (fst (loop_body fd last_state c)) = [switch_for s] /\
    In (Print (LogNoSink (fst (switch_for s)))) (fst (loop_body fd last_state c)) /\
    set_defaults (fst (loop_body fd last_state c)) = [] /\
    switches_of (fst (loop_body fd (Some s) c')) = [] /\
    switches_of (fst (main_loop fd last_state [c; c'])) = [switch_for s].
Proof.
  intros fd last_state c c' s Ho Hlast Hnone Hsleep Ho'.
  assert (Hne : state_ne (Some s) last_state = true).
  { destruct (state_ne (Some s) last_state) eqn:E; [reflexivity |].
    apply state_ne_false in E. contradiction. }
  assert (Hsw1 : switches_of (fst (loop_body fd last_state c)) = [switch_for s]).
  { rewrite (loop_body_switches fd last_state c _ Ho). unfold fired.
    rewrite Hne. destruct s; reflexivity. }
  assert (Hsw2 : switches_of (fst (loop_body fd (Some s) c')) = []).
  { rewrite (loop_body_switches fd (Some s) c' _ Ho'). unfold fired.
    cbn [state_ne]. destruct s; reflexivity. }
  pose proof (loop_body_changed fd last_state c s Ho Hne) as Hbody.
  cbv zeta in Hbody.
  rewrite (switch_audio_not_found _ _ _ Hnone) in Hbody.
  cbn [fst snd] in Hbody. rewrite Hsleep in Hbody.
  assert (Hret : snd (loop_body fd last_state c) = Ok (Some s))
    by (rewrite Hbody; reflexivity).
  repeat split.
  - exact Hret.
  - exact Hsw1.
  - rewrite Hbody. cbn [fst]. apply in_or_app. right.
    right. right. right. apply in_or_app. left. apply in_or_app. right.
    left. reflexivity.
  - rewrite Hbody. cbn [fst]. rewrite set_defaults_app.
    rewrite (get_headset_state_avoids is_set_default fd (c_poll c)
               is_set_default_only).
    cbn [app set_defaults filter is_set_default]. fold set_defaults.
    rewrite !set_defaults_app.
    rewrite (find_sink_id_avoids is_set_default _ _ is_set_default_only).
    reflexivity.
  - exact Hsw2.
  - cbn [main_loop]. rewrite fst_bind, switches_of_app, Hsw1, Hret.
    rewrite fst_bind, switches_of_app, Hsw2.
    destruct (snd (loop_body fd (Some s) c')); reflexivity.
Qed.

(** ** Sorting device paths *)

Lemma ascii_compare_trans_le x y z :
  Ascii.compare x y <> Gt -> Ascii.compare y z <> Gt ->
  Ascii.compare x z <> Gt.
Proof.
  unfold Ascii.compare. rewrite !N.compare_le_iff. lia.
Qed.


Lemma str_le_trans a b c : str_le a b -> str_le b c -> str_le a c.
Proof.
  unfold str_le, String.leb. revert b c.
  induction a as [| x a IH]; intros [| y b] [| z c]; simpl;
    try congruence; try reflexivity.
  unfold Ascii.compare.
  destruct (N.compare_spec (N_of_ascii x) (N_of_ascii y)) as [Hxy | Hxy | Hxy];
    destruct (N.compare_spec (N_of_ascii y) (N_of_ascii z)) as [Hyz | Hyz | Hyz];
    destruct (N.compare_spec (N_of_ascii x) (N_of_ascii z)) as [Hxz | Hxz | Hxz];
    try congruence; try lia.
  apply IH.
Qed.


Lemma str_le_total a b : str_le a b \/ str_le b a.
Proof. apply String.leb_total. Qed.

Lemma str_nle_le a b : String.leb a b = false -> str_le b a.
Proof.
  intros H. destruct (str_le_total a b) as [Hab | Hba]; [| exact Hba].
  unfold str_le in Hab. congruence.
Qed.

Lemma insert_sorted_perm x l : Permutation (x :: l) (insert_sorted x l).
Proof.
  induction l as [| y l IH]; simpl; [reflexivity |].
  destruct (String.leb x y); [reflexivity |].
  rewrite perm_swap. now apply perm_skip.
Qed.


Lemma insert_sorted_StronglySorted x l :
  StronglySorted str_le l -> StronglySorted str_le (insert_sorted x l).
Proof.
  induction 1 as [| y l Hl IH Hy]; simpl.
  - constructor; constructor.
  - destruct (String.leb x y) eqn:E.
    + constructor; [now constructor |].
      constructor; [exact E |].
      eapply Forall_impl; [| exact Hy].
      intros z Hz. now apply (str_le_trans x y z).
    + constructor; [exact IH |].
      apply (Permutation_Forall (insert_sorted_perm x l)).
      constructor; [now apply str_nle_le | exact Hy].
Qed.

Lemma sorted_StronglySorted l : StronglySorted str_le (sorted l).
Proof.
  induction l as [| x l IH]; simpl; [constructor |].
  now apply insert_sorted_StronglySorted.
Qed.



(** ** Device locator *)

Lemma find_hidraw_device_loop_find files devices :
  snd (find_hidraw_device_loop files devices) =
  Ok (find (qualifies files) devices).
Proof.
  induction devices as [| device rest IH]; [reflexivity |].
  cbn [find_hidraw_device_loop find]. unfold qualifies at 1.
  destruct (files (uevent_path_of device)) as [| | text]; try exact IH.
  cbv zeta.
  destruct (PyStr.contains VENDOR_ID (text_upper text)); cbn [negb andb];
    [| exact IH].
  destruct (existsb _ PRODUCT_IDS); cbn [negb andb]; [| exact IH].
  destruct (PyStr.contains "INPUT4" (text_upper text)); cbn [negb].
  - reflexivity.
  - rewrite snd_bind. exact IH.
Qed.







(** ** Sink lookup *)

Lemma find_sink_id_loop_scan name_pattern lines :
  forall in_sinks_section,
    snd (find_sink_id_loop name_pattern in_sinks_section lines) =
    scan_section name_pattern (section_from in_sinks_section lines).
Proof.
  induction lines as [| line rest IH]; intros b; [reflexivity |].
  cbn [find_sink_id_loop section_from].
  destruct (PyStr.contains "Sinks:" line); [apply IH |].
  destruct b; cbn [andb]; [| apply IH].
  destruct (PyStr.contains ":" line && negb (PyStr.contains "│" line));
    [reflexivity |].
  cbn [scan_section]. unfold matches, sink_number.
  destruct (PyStr.contains (text_lower name_pattern) (text_lower line));
    cbn [andb]; [| apply IH].
  destruct (PyStr.contains "Analog Stereo" line || PyStr.contains "Stereo" line);
    [| apply IH].
  cbv zeta.
  destruct (2 <=? List.length (PyStr.split "." line))%nat; [| apply IH].
  rewrite snd_bind.
  destruct (rev _) as [| w ws]; [reflexivity |]. cbn [ret snd].
  destruct (text_isdigit w); [destruct (text_int w); reflexivity | apply IH].
Qed.

Lemma scan_section_selected name_pattern entries id :
  scan_section name_pattern entries = Ok (Some id) <->
  exists pre line post,
    entries = pre ++ line :: post /\
    Forall (passed_over name_pattern) pre /\
    matches name_pattern line = true /\
    sink_number line = Ok (Some id).
Proof.
  induction entries as [| l rest IH]; cbn [scan_section].
  - split; [discriminate |].
    intros (pre & line & post & H & _). destruct pre; discriminate.
  - split.
    + destruct (matches name_pattern l) eqn:Em.
      * destruct (sink_number l) as [[n |] | e] eqn:En.
        -- intros [= ->]. exists [], l, rest. repeat split; auto.
        -- intros H. apply IH in H.
           destruct H as (pre & line & post & -> & Hpre & Hm & Hn).
           exists (l :: pre), line, post. repeat split; auto.
           constructor; [now right | exact Hpre].
        -- discriminate.
      * intros H. apply IH in H.
        destruct H as (pre & line & post & -> & Hpre & Hm & Hn).
        exists (l :: pre), line, post. repeat split; auto.
        constructor; [now left | exact Hpre].
    + intros (pre & line & post & Heq & Hpre & Hm & Hn).
      destruct pre as [| l' pre]; cbn [app] in Heq.
      * injection Heq as -> ->. now rewrite Hm, Hn.
      * injection Heq as -> ->. inversion Hpre as [| ? ? Hl Hpre']; subst.
        assert (Hrest : scan_section name_pattern (pre ++ line :: post) =
                        Ok (Some id)).
        { apply IH. exists pre, line, post. repeat split; auto. }
        destruct Hl as [Hl | Hl]; rewrite Hl; [exact Hrest |].
        destruct (matches name_pattern l'); exact Hrest.
Qed.

Lemma scan_section_passed_over name_pattern entries :
  Forall (passed_over name_pattern) entries ->
  scan_section name_pattern entries = Ok None.
Proof.
  induction 1 as [| l rest Hl _ IH]; [reflexivity |]. cbn [scan_section].
  destruct Hl as [Hl | Hl]; rewrite Hl; [exact IH |].
  destruct (matches name_pattern l); exact IH.
Qed.

Lemma scan_section_raises name_pattern entries e :
  scan_section name_pattern entries = Raise e ->
  e = IndexError \/ e = ValueError.
Proof.
  induction entries as [| l rest IH]; cbn [scan_section]; [discriminate |].
  destruct (matches name_pattern l); [| exact IH].
  unfold sink_number.
  destruct (2 <=? List.length (PyStr.split "." l))%nat; [| exact IH].
  destruct (rev _) as [| w ws]; [intros [= <-]; now left |].
  destruct (text_isdigit w); [| exact IH].
  destruct (text_int w); [discriminate | intros [= <-]; now right].
Qed.

(** What [find_sink_id] returns on a listing: the result of the scan of
    the section, [None] standing in for the error of a scan. *)
Lemma find_sink_id_scan name_pattern stdout :
  snd (find_sink_id name_pattern (Ok stdout)) =
  match scan_section name_pattern (sinks_section stdout) with
  | Ok r => Ok r
  | Raise _ => Ok None
  end.
Proof.
  unfold find_sink_id. rewrite snd_try_except, snd_bind. cbn [perform snd].
  rewrite find_sink_id_loop_scan. fold (sinks_section stdout).
  destruct (scan_section name_pattern (sinks_section stdout)) as [r | e] eqn:E;
    [reflexivity |].
  apply scan_section_raises in E. destruct E as [-> | ->]; reflexivity.
Qed.

Lemma find_sink_id_selected name_pattern stdout id :
  snd (find_sink_id name_pattern (Ok stdout)) = Ok (Some id) <->
  exists line, selected name_pattern stdout line id.
Proof.
  rewrite find_sink_id_scan. unfold selected. split.
  - destruct (scan_section _ _) as [r | e] eqn:E; [| discriminate].
    intros [= ->]. apply scan_section_selected in E.
    destruct E as (pre & line & post & H). exists line, pre, post. exact H.
  - intros (line & pre & post & H).
    assert (E : scan_section name_pattern (sinks_section stdout) = Ok (Some id))
      by (apply scan_section_selected; exists pre, line, post; exact H).
    now rewrite E.
Qed.

Lemma switch_audio_set_defaults pattern friendly io :
  set_defaults (fst (switch_audio pattern friendly io)) =
  match snd (find_sink_id pattern (io_status io)) with
  | Ok (Some id) => [Run ["wpctl"; "set-default"; PyStr.str id]]
  | _ => []
  end.
Proof.
  pose proof (find_sink_id_avoids is_set_default pattern (io_status io)
                is_set_default_only) as Hquiet.
  unfold avoids in Hquiet. fold (set_defaults) in Hquiet.
  destruct (snd (find_sink_id pattern (io_status io))) as [[id |] | e] eqn:E.
  - rewrite (switch_audio_found _ _ _ _ E). cbn [fst].
    change (SwitchCalled pattern friendly :: ?l) with
      ([SwitchCalled pattern friendly] ++ l).
    rewrite !set_defaults_app.
    change (set_defaults (fst (find_sink_id pattern (io_status io))))
      with (filter is_set_default (fst (find_sink_id pattern (io_status io)))).
    rewrite Hquiet. reflexivity.
  - rewrite (switch_audio_not_found _ _ _ E). cbn [fst].
    change (SwitchCalled pattern friendly :: ?l) with
      ([SwitchCalled pattern friendly] ++ l).
    rewrite !set_defaults_app.
    change (set_defaults (fst (find_sink_id pattern (io_status io))))
      with (filter is_set_default (fst (find_sink_id pattern (io_status io)))).
    rewrite Hquiet. reflexivity.
  - unfold switch_audio. rewrite fst_bind. cbn [emit fst snd].
    rewrite fst_bind, E, app_nil_r.
    change ([SwitchCalled pattern friendly] ++ ?l) with
      (SwitchCalled pattern friendly :: l).
    unfold set_defaults. cbn [filter is_set_default]. exact Hquiet.
Qed.

Lemma prefix_app_contains a b s :
  prefix (a ++ b) s = true -> PyStr.contains b s = true.
Proof.
  revert s. induction a as [| c a IH]; intros s H.
  - cbn [append] in H. destruct s; cbn [PyStr.contains]; now rewrite H.
  - destruct s as [| c' s]; cbn [append prefix] in H; [discriminate |].
    destruct (ascii_dec c c'); [| discriminate].
    cbn [PyStr.contains]. rewrite (IH s H). apply orb_true_r.
Qed.

Lemma contains_app_r a b s :
  PyStr.contains (a ++ b) s = true -> PyStr.contains b s = true.
Proof.
  induction s as [| c s IH]; cbn [PyStr.contains]; intros H.
  - rewrite orb_false_r in H. apply (prefix_app_contains a b _ H).
  - apply orb_true_iff in H. destruct H as [H | H].
    + apply (prefix_app_contains a b _ H).
    + destruct (prefix b (String c s)); [reflexivity |]. now apply IH.
Qed.

Lemma matches_iff name_pattern line :
  matches name_pattern line = true <->
  PyStr.contains (text_lower name_pattern) (text_lower line) = true /\
  PyStr.contains "Stereo" line = true.
Proof.
  unfold matches. rewrite andb_true_iff, orb_true_iff. split.
  - intros [Hn [Hs | Hs]]; split; auto.
    apply (contains_app_r "Analog " "Stereo" line Hs).
  - intros [Hn Hs]. auto.
Qed.

Lemma find_sink_id_loop_lower p q lines :
  text_lower q = text_lower p ->
  forall in_sinks_section,
    find_sink_id_loop q in_sinks_section lines =
    find_sink_id_loop p in_sinks_section lines.
Proof.
  intros Hpq. induction lines as [| line rest IH]; intros b; [reflexivity |].
  cbn [find_sink_id_loop]. rewrite Hpq, !IH. reflexivity.
Qed.

(** What [find_sink_id] does on a listing: the command, then the scan of
    the section; an exception of the scan is printed and gives [None]. *)
Lemma find_sink_id_listing name_pattern stdout :
  find_sink_id name_pattern (Ok stdout) =
  match scan_section name_pattern (sinks_section stdout) with
  | Ok r => ([Run ["wpctl"; "status"]], Ok r)
  | Raise e => ([Run ["wpctl"; "status"]; Print (LogFindSinkError e)], Ok None)
  end.
Proof.
  unfold find_sink_id. cbn [perform bind].
  pose proof (find_sink_id_loop_silent name_pattern
                (PyStr.split PyStr.LF stdout) false) as Hfst.
  pose proof (find_sink_id_loop_scan name_pattern
                (PyStr.split PyStr.LF stdout) false) as Hsnd.
  fold (sinks_section stdout) in Hsnd.
  destruct (find_sink_id_loop name_pattern false (PyStr.split PyStr.LF stdout))
    as [tr r].
  cbn [fst snd] in Hfst, Hsnd. subst tr r.
  destruct (scan_section name_pattern (sinks_section stdout)) as [r | e] eqn:E;
    [reflexivity |].
  apply scan_section_raises in E. destruct E as [-> | ->]; reflexivity.
Qed.

(** The identifier of a line whose text before the first dot ends in the
    digits [ds]: what [int] makes of the digits. *)
Lemma sink_number_of_digits lead ds rest :
  plain lead ->
  PyStr.contains "." lead = false ->
  ends_blank lead = true ->
  PyStr.isdigit ds = true ->
  sink_number (lead ++ ds ++ String "." rest) =
  match text_int ds with
  | Some id => Ok (Some id)
  | None => Raise ValueError
  end.
Proof.
  intros Hplain Hlead Hblank Hds.
  destruct (isdigit_all ds Hds) as [Hne Hall].
  destruct (digits_facts ds Hall) as [Hnosp Hnodot].
  pose proof (plain_digits ds Hall) as Hpds.
  pose proof (plain_app lead ds Hplain Hpds) as Hpl.
  unfold sink_number. rewrite <- append_assoc.
  rewrite (split_at_first_dot (lead ++ ds) rest)
    by now apply contains_dot_app.
  cbn [hd List.length].
  assert (Hlen : (2 <=? S (List.length (PyStr.split "." rest)))%nat = true).
  { pose proof (split_nonempty "." rest) as Hsp.
    destruct (PyStr.split "." rest); [congruence | reflexivity]. }
  cbv zeta. rewrite Hlen.
  rewrite (strip_plain _ Hpl), (words_plain _ (plain_strip _ Hpl)).
  rewrite words_strip, (words_app_last lead ds Hblank Hne Hnosp).
  rewrite rev_app_distr. cbn [rev app].
  now rewrite (isdigit_plain ds Hpds), Hds.
Qed.

Lemma sink_number_entry line id :
  entry line id -> sink_number line = Ok (Some id).
Proof.
  intros (lead & rest & -> & Hplain & Hdot & Hblank & Hlen).
  destruct (int_str id) as [Hdigit Hint].
  rewrite (sink_number_of_digits lead (PyStr.str id) rest Hplain Hdot Hblank
             Hdigit).
  now rewrite (int_plain _ Hdigit Hlen), Hint.
Qed.




End Properties.

(** * Plain input

    On metadata and listings in plain text every interpreter computes what
    [ascii_text] does, so that a run on such input is a matter of
    evaluation. *)

Section PlainInput.

Context {T : PyText}.

Lemma matches_plain name_pattern line :
  plain name_pattern -> plain line ->
  matches name_pattern line = @matches ascii_text name_pattern line.
Proof.
  intros Hp Hl. unfold matches.
  now rewrite (lower_plain _ Hp), (lower_plain _ Hl).
Qed.

Lemma sink_number_plain line :
  plain_line line -> sink_number line = @sink_number ascii_text line.
Proof.
  intros [Hl Hlen]. unfold sink_number. cbv zeta.
  destruct (2 <=? List.length (PyStr.split "." line))%nat; [| reflexivity].
  set (h := hd EmptyString (PyStr.split "." line)).
  assert (Hh : plain h /\ String.length h <= String.length line).
  { subst h. pose proof (plain_split "." line eq_refl Hl) as Hp.
    pose proof (split_length "." line) as Hs.
    destruct (PyStr.split "." line) as [| h t]; cbn [hd].
    - split; [constructor | cbn; lia].
    - inversion Hp; inversion Hs; subst. now split. }
  destruct Hh as [Hh Hhl].
  rewrite (strip_plain h Hh), (words_plain _ (plain_strip h Hh)).
  change (@text_words ascii_text (@text_strip ascii_text h))
    with (PyStr.words (PyStr.strip h)).
  pose proof (plain_words _ (plain_strip h Hh)) as Hw.
  pose proof (words_length (PyStr.strip h)) as Hwl.
  pose proof (strip_length h) as Hsl.
  rewrite Forall_forall in Hw, Hwl.
  destruct (rev (PyStr.words (PyStr.strip h))) as [| w ws] eqn:E;
    [reflexivity |].
  assert (Hin : In w (PyStr.words (PyStr.strip h))).
  { apply in_rev. rewrite E. now left. }
  pose proof (Hw w Hin) as Hpw. pose proof (Hwl w Hin) as Hlw.
  rewrite (isdigit_plain w Hpw).
  change (@text_isdigit ascii_text w) with (PyStr.isdigit w).
  destruct (PyStr.isdigit w) eqn:Ed; [| reflexivity].
  rewrite (int_plain w Ed) by lia. reflexivity.
Qed.

Lemma scan_section_plain name_pattern entries :
  plain name_pattern -> Forall plain_line entries ->
  scan_section name_pattern entries =
  @scan_section ascii_text name_pattern entries.
Proof.
  intros Hp. induction 1 as [| line rest Hline _ IH]; [reflexivity |].
  cbn [scan_section].
  rewrite (matches_plain _ _ Hp (proj1 Hline)), (sink_number_plain _ Hline), IH.
  reflexivity.
Qed.

Lemma find_sink_id_plain name_pattern status :
  plain name_pattern -> plain_listing status ->
  find_sink_id name_pattern status =
  @find_sink_id ascii_text name_pattern status.
Proof.
  intros Hp Hl. destruct status as [stdout | e]; [| reflexivity].
  rewrite find_sink_id_listing, (@find_sink_id_listing ascii_text).
  now rewrite (scan_section_plain _ _ Hp (Hl stdout eq_refl)).
Qed.

Lemma switch_audio_plain name_pattern friendly io :
  plain name_pattern -> plain_listing (io_status io) ->
  switch_audio name_pattern friendly io =
  @switch_audio ascii_text name_pattern friendly io.
Proof.
  intros Hp Hl. unfold switch_audio.
  now rewrite (find_sink_id_plain _ _ Hp Hl).
Qed.

Lemma loop_body_plain fd last_state c :
  plain_cycle c ->
  loop_body fd last_state c = @loop_body ascii_text fd last_state c.
Proof.
  intros Hc. unfold loop_body.
  rewrite (switch_audio_plain HEADPHONE_SINK_NAME "Headphones" (c_switch c))
    by (try exact Hc; apply plainb_plain; reflexivity).
  rewrite (switch_audio_plain SPEAKER_SINK_NAME "Speakers" (c_switch c))
    by (try exact Hc; apply plainb_plain; reflexivity).
  reflexivity.
Qed.

Lemma main_loop_plain fd cycles :
  Forall plain_cycle cycles ->
  forall last_state,
    main_loop fd last_state cycles = @main_loop ascii_text fd last_state cycles.
Proof.
  induction 1 as [| c rest Hc _ IH]; intros last_state; [reflexivity |].
  cbn [main_loop]. rewrite (loop_body_plain _ _ _ Hc).
  apply bind_ext. intros s. apply IH.
Qed.

Lemma find_hidraw_device_loop_plain files devices :
  plain_files files ->
  find_hidraw_device_loop files devices =
  @find_hidraw_device_loop ascii_text files devices.
Proof.
  intros Hf. induction devices as [| device rest IH]; [reflexivity |].
  cbn [find_hidraw_device_loop].
  destruct (files (uevent_path_of device)) as [| | text] eqn:E; try exact IH.
  rewrite (upper_plain text (Hf _ _ E)), IH. reflexivity.
Qed.

Lemma qualifies_plain files device :
  plain_files files ->
  qualifies files device = @qualifies ascii_text files device.
Proof.
  intros Hf. unfold qualifies.
  destruct (files (uevent_path_of device)) as [| | text] eqn:E;
    try reflexivity.
  now rewrite (upper_plain text (Hf _ _ E)).
Qed.

Lemma find_hidraw_device_plain env :
  plain_files (dev_files env) ->
  find_hidraw_device env = @find_hidraw_device ascii_text env.
Proof. intros Hf. now apply find_hidraw_device_loop_plain. Qed.

Lemma main_plain env cycles :
  plain_files (dev_files (env_devices env)) ->
  Forall plain_cycle cycles ->
  main env cycles = @main ascii_text env cycles.
Proof.
  intros Hf Hc. unfold main.
  rewrite (find_hidraw_device_plain _ Hf).
  destruct (bind (print LogStarting) _) as [tr [fd | e]]; [| reflexivity].
  now rewrite (main_loop_plain fd cycles Hc None).
Qed.

Lemma sample_files_plain : plain_files sample_files.
Proof.
  intros path text. unfold sample_files.
  repeat match goal with
         | |- (if ?c then _ else _) = _ -> _ => destruct c
         end;
    try discriminate; intros [= <-]; apply plainb_plain; reflexivity.
Qed.

End PlainInput.

(** Discharges that a concrete text, listing or iteration is plain. *)
Ltac plain_input :=
  lazymatch goal with
  | |- plain _ => apply plainb_plain; vm_compute; reflexivity
  | |- plain_listing _ =>
      let H := fresh in
      intros ? H;
      first [ discriminate H
            | injection H as <-; apply plain_lines_check; vm_compute;
              reflexivity ]
  | |- plain_cycle _ => unfold plain_cycle; cbn [c_switch io_status]; plain_input
  | |- Forall plain_cycle _ => repeat (constructor; [plain_input |]); constructor
  | |- plain_files _ => exact sample_files_plain
  end.

Section Lookup.

Context {T : PyText}.


(** C10.  The line whose identifier [find_sink_id] returns contains the
    name pattern whatever the case of either and contains [Stereo] spelled
    with a capital S; patterns that differ in case only give the same
    result; a section in which no line contains [Stereo] in that spelling
    gives [None].  The line of the stream 52 written in lower case
    contains the name pattern whatever the case and does not pass, and the
    listing with [analog stereo] in lower case gives [None]. *)
Theorem stereo_check_case_sensitive :
  forall (name_pattern stdout : string),
    (forall id,
        snd (find_sink_id name_pattern (Ok stdout)) = Ok (Some id) ->
        exists line,
          selected name_pattern stdout line id /\
          PyStr.contains (text_lower name_pattern) (text_lower line) = true /\
          PyStr.contains "Stereo" line = true) /\
    (forall q,
        text_lower q = text_lower name_pattern ->
        find_sink_id q (Ok stdout) = find_sink_id name_pattern (Ok stdout)) /\
    (Forall (fun line => PyStr.contains "Stereo" line = false)
       (sinks_section stdout) ->
     snd (find_sink_id name_pattern (Ok stdout)) = Ok None) /\
    (PyStr.contains (text_lower "Arctis Nova Pro")
       (text_lower
          (text_lower " │  *   52. Arctis Nova Pro Wireless Analog Stereo"))
     = true /\
     matches "Arctis Nova Pro"
       (text_lower " │  *   52. Arctis Nova Pro Wireless Analog Stereo") = false /\
     snd (find_sink_id "Arctis Nova Pro" (Ok lowercase_listing)) = Ok None).
Proof.
  intros name_pattern stdout. split; [| split; [| split]].
  - intros id Hid. apply find_sink_id_selected in Hid.
    destruct Hid as [line Hsel]. exists line. split; [exact Hsel |].
    destruct Hsel as (pre & post & _ & _ & Hm & _).
    now apply matches_iff.
  - intros q Hq. unfold find_sink_id. cbn [perform bind].
    now rewrite (find_sink_id_loop_lower name_pattern q _ Hq).
  - intros Hall. rewrite find_sink_id_scan.
    rewrite scan_section_passed_over; [reflexivity |].
    eapply Forall_impl; [| exact Hall].
    intros line Hline. left.
    destruct (matches name_pattern line) eqn:Em; [| reflexivity].
    apply matches_iff in Em. destruct Em as [_ Em]. congruence.
  - assert (Hline : text_lower
                      " │  *   52. Arctis Nova Pro Wireless Analog Stereo" =
                    " │  *   52. arctis nova pro wireless analog stereo")
      by (rewrite lower_plain by plain_input; reflexivity).
    rewrite Hline. split; [| split].
    + rewrite !lower_plain by plain_input. reflexivity.
    + unfold matches. apply andb_false_iff. right. reflexivity.
    + rewrite find_sink_id_plain by plain_input. vm_compute. reflexivity.
Qed.

(** ** Errors that leave the loop, and the exit of the process *)

(** C6, at the input where the code departs from it.  The headset reports
    Online, the listing names its sink 52, and [wpctl set-default 52]
    cannot be run: the [OSError] of [subprocess.run] is caught nowhere, so
    it leaves the loop in this iteration (the next iteration never polls)
    and, after the descriptor is closed, ends the process with status 1. *)
Theorem set_default_error_leaves_loop :
  snd (main_loop 3 None
         [set_default_unavailable; calm_cycle sample_listing (Some OFF)]) =
  Raise OSError /\
  polls_of
    (fst (main_loop 3 None
            [set_default_unavailable; calm_cycle sample_listing (Some OFF)])) =
  [Some ON] /\
  set_defaults
    (fst (main_loop 3 None
            [set_default_unavailable; calm_cycle sample_listing (Some OFF)])) =
  [Run ["wpctl"; "set-default"; "52"]] /\
  snd (main sample_env
         [set_default_unavailable; calm_cycle sample_listing (Some OFF)]) =
  Exited 1.
Proof.
  rewrite (main_loop_plain 3
             [set_default_unavailable; calm_cycle sample_listing (Some OFF)])
    by plain_input.
  rewrite (main_plain sample_env
             [set_default_unavailable; calm_cycle sample_listing (Some OFF)])
    by plain_input.
  vm_compute. repeat split.
Qed.


Lemma filter_nil_not_in {A} (P : A -> bool) l x :
  filter P l = [] -> P x = true -> ~ In x l.
Proof.
  intros Hnil Hx Hin.
  assert (Hf : In x (filter P l)) by (apply filter_In; now split).
  rewrite Hnil in Hf. destruct Hf.
Qed.


Lemma get_headset_state_no_close fd io :
  avoids is_close (get_headset_state fd io).
Proof.
  unfold get_headset_state, os_write, select_readable, os_read, index, print,
    emit.
  repeat avoids_step.
Qed.

Lemma find_sink_id_no_close name_pattern status :
  avoids is_close (find_sink_id name_pattern status).
Proof.
  unfold find_sink_id, print, emit.
  apply avoids_try_except.
  - apply avoids_bind; [now apply avoids_perform |].
    intros stdout. unfold avoids. now rewrite find_sink_id_loop_silent.
  - intros e. repeat avoids_step.
Qed.

Lemma switch_audio_no_close pattern friendly io :
  avoids is_close (switch_audio pattern friendly io).
Proof.
  unfold switch_audio, print, emit.
  apply avoids_bind; [now apply avoids_perform |]. intros _.
  apply avoids_bind; [apply find_sink_id_no_close |].
  intros [id |]; repeat avoids_step.
Qed.

Lemma loop_body_no_close fd last_state c :
  avoids is_close (loop_body fd last_state c).
Proof.
  unfold loop_body, print, emit.
  apply avoids_bind; [apply get_headset_state_no_close |]. intros state.
  apply avoids_bind; [now apply avoids_perform |]. intros _.
  apply avoids_bind.
  - destruct state as [s |]; [| apply avoids_ret].
    destruct (state_ne (Some s) last_state); [| apply avoids_ret].
    apply avoids_bind; [now apply avoids_perform |]. intros _.
    apply avoids_bind; [| intros _; apply avoids_ret].
    destruct s; apply switch_audio_no_close.
  - intros l. repeat avoids_step.
Qed.

(** The loop itself never closes the descriptor. *)
Lemma main_loop_no_close fd cycles :
  forall last_state, avoids is_close (main_loop fd last_state cycles).
Proof.
  induction cycles as [| c rest IH]; intros last_state; [reflexivity |].
  cbn [main_loop]. apply avoids_bind; [apply loop_body_no_close | apply IH].
Qed.


(** * Further properties *)

(** ** Errors of the poller *)

Lemma index_in_range (response : list byte) :
  (List.length response <? 16)%nat = false ->
  exists b, nth_error response 15 = Some b.
Proof.
  intros Hlen. apply Nat.ltb_ge in Hlen.
  destruct (nth_error response 15) as [b |] eqn:E; [now exists b |].
  apply nth_error_None in E. lia.
Qed.

(** The events of one poll, by what the operating system answers. *)
Lemma get_headset_state_trace fd io :
  fst (get_headset_state fd io) =
  OsWrite fd POLL_COMMAND ::
  match io_write io with
  | Raise e => poll_error_log e
  | Ok _ =>
      match io_select io with
      | Raise e => Select fd 500 0 :: poll_error_log e
      | Ok NeverReadable => [Select fd 500 500]
      | Ok (ReadableAfter t) =>
          if (t <=? 500)%N
          then Select fd 500 t :: OsRead fd 128 ::
               match io_read io with
               | Raise e => poll_error_log e
               | Ok _ => []
               end
          else [Select fd 500 500]
      end
  end.
Proof.
  unfold get_headset_state, os_write, select_readable, os_read, perform,
    poll_error_log.
  destruct (io_write io) as [n | e]; cbn [bind try_except fst snd app];
    [| destruct (is_Exception e); reflexivity].
  destruct (io_select io) as [[t |] | e]; cbn [bind try_except fst snd app];
    [| reflexivity | destruct (is_Exception e); reflexivity].
  destruct (t <=? 500)%N; cbn [bind try_except fst snd app negb];
    [| reflexivity].
  destruct (io_read io) as [data | e];
    cbn [bind try_except fst snd app negb ret];
    [| destruct (is_Exception e); reflexivity].
  destruct (List.length (firstn 128 data) <? 16)%nat eqn:Hlen;
    cbn [bind try_except fst snd app negb ret]; [reflexivity |].
  destruct (index_in_range _ Hlen) as [b Hb]. unfold index. rewrite Hb.
  cbn [bind ret].
  destruct (Byte.to_N b =? HEADSET_OFFLINE)%N; [reflexivity |].
  destruct ((Byte.to_N b =? HEADSET_ONLINE)%N
            || (Byte.to_N b =? HEADSET_CHARGING)%N); reflexivity.
Qed.

(** X1.  An exception [e] of [os.write], [select.select] or [os.read] ends
    the poll at that call: when [e] is an [Exception] the poll prints it
    and returns [None]; when it is not (an interrupt) the poll prints
    nothing and [e] passes through.  After a failed write nothing is
    waited for, after a failed wait nothing is read. *)
Theorem get_headset_state_io_error :
  forall (fd : Z) (io : poll_io) (e : exn),
    (io_write io = Raise e ->
     get_headset_state fd io =
     (OsWrite fd POLL_COMMAND :: poll_error_log e, poll_error_result e)) /\
    (forall n,
        io_write io = Ok n -> io_select io = Raise e ->
        get_headset_state fd io =
        (OsWrite fd POLL_COMMAND :: Select fd 500 0 :: poll_error_log e,
         poll_error_result e)) /\
    (forall n t,
        io_write io = Ok n -> io_select io = Ok (ReadableAfter t) ->
        (t <= 500)%N -> io_read io = Raise e ->
        get_headset_state fd io =
        (OsWrite fd POLL_COMMAND :: Select fd 500 t :: OsRead fd 128 ::
           poll_error_log e,
         poll_error_result e)).
Proof.
  intros fd io e.
  unfold get_headset_state, os_write, select_readable, os_read, perform,
    poll_error_log, poll_error_result.
  split; [| split].
  - intros ->. cbn. destruct (is_Exception e); reflexivity.
  - intros n -> ->. cbn. destruct (is_Exception e); reflexivity.
  - intros n t -> -> Ht ->. apply N.leb_le in Ht. rewrite Ht. cbn.
    destruct (is_Exception e); reflexivity.
Qed.

(** X2.  Every poll writes the command once, as its first action, and to
    the descriptor it was given; it waits at most once, with a timeout of
    500 ms and for no longer than that; it reads at most once, at most 128
    bytes, and only after a wait that found the node readable in time; it
    runs no command, opens and closes nothing and does not sleep. *)
Theorem get_headset_state_protocol :
  forall (fd : Z) (io : poll_io),
    exists rest,
      fst (get_headset_state fd io) = OsWrite fd POLL_COMMAND :: rest /\
      (forall ev,
          In ev rest ->
          (exists waited, ev = Select fd 500 waited /\ (waited <= 500)%N) \/
          (ev = OsRead fd 128 /\
           exists t, io_select io = Ok (ReadableAfter t) /\ (t <= 500)%N /\
                     In (Select fd 500 t) rest) \/
          (exists e, ev = Print (LogPollError e))) /\
      List.length (filter (fun ev => match ev with Select _ _ _ => true | _ => false end) rest) <= 1 /\
      List.length (filter (fun ev => match ev with OsRead _ _ => true | _ => false end) rest) <= 1.
Proof.
  intros fd io. rewrite get_headset_state_trace. eexists. split; [reflexivity |].
  unfold poll_error_log.
  destruct (io_write io) as [n | e].
  - destruct (io_select io) as [[t |] | e].
    + destruct (t <=? 500)%N eqn:Ht.
      * apply N.leb_le in Ht.
        destruct (io_read io) as [data | e]; [| destruct (is_Exception e)];
          (split; [| split; cbn; lia]); intros ev Hin; cbn in Hin;
          repeat (destruct Hin as [<- | Hin]); try destruct Hin;
          try (left; exists t; now split);
          try (right; left; split; [reflexivity |]; exists t;
               repeat split; auto; now left);
          try (right; right; now exists e).
      * split; [| split; cbn; lia]. intros ev [<- | []].
        left. exists 500%N. split; [reflexivity | lia].
    + split; [| split; cbn; lia]. intros ev [<- | []].
      left. exists 500%N. split; [reflexivity | lia].
    + destruct (is_Exception e); (split; [| split; cbn; lia]);
        intros ev Hin; cbn in Hin;
        repeat (destruct Hin as [<- | Hin]); try destruct Hin;
        try (left; exists 0%N; split; [reflexivity | lia]);
        try (right; right; now exists e).
  - destruct (is_Exception e); (split; [| split; cbn; lia]);
      intros ev Hin; cbn in Hin;
      repeat (destruct Hin as [<- | Hin]); try destruct Hin;
      right; right; now exists e.
Qed.

(** ** Errors of the sink listing *)

(** X3.  When [wpctl status] cannot be run, [find_sink_id] stops there.
    For an [Exception] it prints the error and returns [None], so that
    [switch_audio] prints its warning, runs no [wpctl set-default] and
    returns; an interrupt passes through both functions with nothing
    printed. *)
Theorem switch_audio_listing_error :
  forall (pattern friendly : string) (io : switch_io) (e : exn),
    io_status io = Raise e ->
    switch_audio pattern friendly io =
    if is_Exception e
    then ([SwitchCalled pattern friendly; Run ["wpctl"; "status"];
           Print (LogFindSinkError e); Print (LogNoSink pattern)], Ok tt)
    else ([SwitchCalled pattern friendly; Run ["wpctl"; "status"]], Raise e).
Proof.
  intros pattern friendly io e Hst.
  unfold switch_audio, find_sink_id, perform. rewrite Hst. cbn.
  destruct (is_Exception e); reflexivity.
Qed.

(** ** The iterations of the loop, event by event *)

Lemma loop_body_poll_raises fd last_state c e :
  snd (get_headset_state fd (c_poll c)) = Raise e ->
  loop_body fd last_state c = (fst (get_headset_state fd (c_poll c)), Raise e).
Proof.
  intros He. unfold loop_body.
  destruct (get_headset_state fd (c_poll c)) as [trg rg].
  cbn in He. subst rg. reflexivity.
Qed.

Lemma loop_body_unchanged fd last_state c o :
  snd (get_headset_state fd (c_poll c)) = Ok o ->
  fired last_state o = [] ->
  loop_body fd last_state c =
  (fst (get_headset_state fd (c_poll c)) ++
     [PollReturned o; Sleep POLL_INTERVAL],
   match c_sleep c with
   | Ok _ => Ok last_state
   | Raise e => Raise e
   end).
Proof.
  intros Ho Hfired. unfold loop_body.
  destruct (get_headset_state fd (c_poll c)) as [trg rg].
  cbn in Ho. subst rg. cbn [bind emit fst snd].
  destruct o as [s |].
  - unfold fired in Hfired.
    destruct (state_ne (Some s) last_state); [discriminate |].
    cbn. destruct (c_sleep c); reflexivity.
  - cbn. destruct (c_sleep c); reflexivity.
Qed.

Lemma fired_some last_state s :
  state_ne (Some s) last_state = true ->
  fired last_state (Some s) = [switch_event s].
Proof. intros H. unfold fired. now rewrite H. Qed.

Lemma get_headset_state_outside P fd io :
  (forall ev, outside_switch ev = true -> P ev = false) ->
  filter P (fst (get_headset_state fd io)) = [].
Proof.
  intros HP. rewrite get_headset_state_trace.
  assert (Hlog : forall e, filter P (poll_error_log e) = []).
  { intros e. unfold poll_error_log. destruct (is_Exception e); cbn;
      [rewrite HP |]; reflexivity. }
  cbn [filter]. rewrite (HP (OsWrite fd POLL_COMMAND) eq_refl).
  destruct (io_write io) as [n | e]; [| apply Hlog].
  destruct (io_select io) as [[t |] | e].
  - destruct (t <=? 500)%N; cbn [filter].
    + rewrite (HP (Select fd 500 t) eq_refl), (HP (OsRead fd 128) eq_refl).
      destruct (io_read io); [reflexivity | apply Hlog].
    + now rewrite (HP (Select fd 500 500) eq_refl).
  - cbn [filter]. now rewrite (HP (Select fd 500 500) eq_refl).
  - cbn [filter]. rewrite (HP (Select fd 500 0) eq_refl). apply Hlog.
Qed.

(** What an iteration contributes to a filter that lets nothing through
    outside the switch: the events of the switch it calls, if any. *)
Lemma loop_body_filter P fd last_state c :
  (forall ev, outside_switch ev = true -> P ev = false) ->
  filter P (fst (loop_body fd last_state c)) =
  match snd (get_headset_state fd (c_poll c)) with
  | Ok (Some s) =>
      if state_ne (Some s) last_state
      then filter P (fst (switch_audio (fst (switch_for s)) (snd (switch_for s))
                            (c_switch c)))
      else []
  | _ => []
  end.
Proof.
  intros HP.
  pose proof (get_headset_state_outside P fd (c_poll c) HP) as Hget.
  destruct (snd (get_headset_state fd (c_poll c))) as [[s |] | e] eqn:Ho.
  - destruct (state_ne (Some s) last_state) eqn:Hne.
    + rewrite (loop_body_changed fd last_state c s Ho Hne). cbn [fst].
      rewrite filter_app, Hget. cbn [app filter].
      rewrite (HP (PollReturned (Some s)) eq_refl),
        (HP (Print (LogStateChanged last_state (Some s))) eq_refl).
      rewrite filter_app.
      destruct (snd (switch_audio _ _ _)); cbn [filter];
        [rewrite (HP (Sleep POLL_INTERVAL) eq_refl) |]; apply app_nil_r.
    + rewrite (loop_body_unchanged fd last_state c _ Ho)
        by (unfold fired; now rewrite Hne).
      cbn [fst]. rewrite filter_app, Hget. cbn [app filter].
      now rewrite (HP (PollReturned (Some s)) eq_refl),
        (HP (Sleep POLL_INTERVAL) eq_refl).
  - rewrite (loop_body_unchanged fd last_state c _ Ho eq_refl).
    cbn [fst]. rewrite filter_app, Hget. cbn [app filter].
    now rewrite (HP (PollReturned None) eq_refl),
      (HP (Sleep POLL_INTERVAL) eq_refl).
  - rewrite (loop_body_poll_raises fd last_state c e Ho). exact Hget.
Qed.

(** ** Commands of a run *)

Lemma find_sink_id_status_runs name_pattern status :
  status_runs (fst (find_sink_id name_pattern status)) =
  [Run ["wpctl"; "status"]].
Proof.
  unfold find_sink_id. rewrite fst_try_except, fst_bind. cbn [perform fst snd].
  unfold status_runs. rewrite <- app_assoc. cbn [app filter is_status].
  cbn [String.eqb Ascii.eqb Bool.eqb andb]. f_equal.
  rewrite filter_app.
  assert (Hloop : filter is_status
                    match status with
                    | Ok a => fst (find_sink_id_loop name_pattern false
                                     (PyStr.split PyStr.LF a))
                    | Raise _ => []
                    end = []).
  { destruct status; [now rewrite find_sink_id_loop_silent | reflexivity]. }
  rewrite Hloop. cbn [app].
  destruct (snd _) as [r | e]; [reflexivity |].
  destruct (is_Exception e); reflexivity.
Qed.

Lemma switch_audio_status_runs pattern friendly io :
  status_runs (fst (switch_audio pattern friendly io)) =
  [Run ["wpctl"; "status"]].
Proof.
  pose proof (find_sink_id_status_runs pattern (io_status io)) as Hfind.
  unfold switch_audio. rewrite fst_bind. cbn [emit fst snd].
  rewrite fst_bind. unfold status_runs in *.
  cbn [app filter is_status]. rewrite filter_app, Hfind.
  destruct (snd (find_sink_id pattern (io_status io))) as [[id |] | e];
    try reflexivity.
  rewrite fst_bind. cbn [print emit fst snd]. rewrite fst_bind.
  cbn [perform fst snd app filter is_status String.eqb Ascii.eqb Bool.eqb andb].
  destruct (io_set_default io); reflexivity.
Qed.

Lemma loop_body_counts fd last_state c :
  List.length (status_runs (fst (loop_body fd last_state c))) =
  List.length (switches_of (fst (loop_body fd last_state c))) /\
  List.length (set_defaults (fst (loop_body fd last_state c))) <=
  List.length (switches_of (fst (loop_body fd last_state c))).
Proof.
  unfold status_runs, set_defaults.
  rewrite !loop_body_filter by (intros [] H; try discriminate H; reflexivity).
  destruct (snd (get_headset_state fd (c_poll c))) as [o | e] eqn:Ho.
  - rewrite (loop_body_switches fd last_state c o Ho).
    destruct o as [s |]; [| split; [reflexivity | apply Nat.le_refl]].
    unfold fired. destruct (state_ne (Some s) last_state);
      [| split; [reflexivity | apply Nat.le_refl]].
    fold (status_runs (fst (switch_audio (fst (switch_for s))
                              (snd (switch_for s)) (c_switch c)))).
    fold (set_defaults (fst (switch_audio (fst (switch_for s))
                               (snd (switch_for s)) (c_switch c)))).
    rewrite switch_audio_status_runs, switch_audio_set_defaults.
    split; [destruct s; reflexivity |].
    destruct (snd (find_sink_id _ _)) as [[id |] | e]; destruct s; cbn; lia.
  - rewrite (loop_body_poll_raises fd last_state c e Ho). cbn [fst].
    rewrite <- switches_of_key_events, get_headset_state_quiet.
    split; [reflexivity | apply Nat.le_refl].
Qed.

(** X4.  In every run of the loop, whatever goes wrong, [wpctl status] is
    run exactly once for each call of [switch_audio], and
    [wpctl set-default] at most once for each: no default is set outside a
    switch, and none twice for one state change. *)
Theorem main_loop_commands :
  forall (fd : Z) (cycles : list cycle_io) (last_state : option HeadsetState),
    let tr := fst (main_loop fd last_state cycles) in
    List.length (status_runs tr) = List.length (switches_of tr) /\
    List.length (set_defaults tr) <= List.length (switches_of tr).
Proof.
  intros fd cycles. induction cycles as [| c rest IH]; intros last_state tr.
  - split; [reflexivity | apply Nat.le_refl].
  - subst tr. cbn [main_loop]. rewrite fst_bind.
    unfold status_runs, set_defaults.
    rewrite !filter_app, switches_of_app, !length_app.
    destruct (loop_body_counts fd last_state c) as [Hst Hsd].
    unfold status_runs, set_defaults in Hst, Hsd.
    destruct (snd (loop_body fd last_state c)) as [l' |].
    + destruct (IH l') as [Hst' Hsd'].
      unfold status_runs, set_defaults in Hst', Hsd'. split; lia.
    + cbn. split; lia.
Qed.

(** ** The sequence of switches *)

Lemma runs_alternate l : Sorted (fun a b : HeadsetState => a <> b) (runs l).
Proof.
  induction l as [| x l IH]; [constructor |].
  destruct l as [| y l]; [repeat constructor |].
  rewrite runs_cons_cons.
  destruct (HeadsetState_eqb x y) eqn:E; [exact IH |].
  constructor; [exact IH |].
  rewrite (runs_cons y l). constructor.
  intros ->. destruct y; discriminate.
Qed.

Lemma Sorted_map_ne {A B} (f : A -> B) l :
  (forall a b, a <> b -> f a <> f b) ->
  Sorted (fun a b => a <> b) l ->
  Sorted (fun a b => a <> b) (map f l).
Proof.
  intros Hf. induction 1 as [| a l Hl IH Hhd]; [constructor |].
  cbn [map]. constructor; [exact IH |].
  destruct Hhd as [| b l Hab]; constructor. now apply Hf.
Qed.

(** X5.  In every run of the loop from the initial [None], two switches
    that follow one another never name the same sink: after the
    headphones comes a switch to the speakers and after the speakers one
    to the headphones. *)
Theorem main_loop_switches_alternate :
  forall (fd : Z) (cycles : list cycle_io),
    Sorted (fun a b : string * string => a <> b)
      (switches_of (fst (main_loop fd None cycles))).
Proof.
  intros fd cycles. rewrite main_loop_switches.
  apply Sorted_map_ne; [| apply runs_alternate].
  intros [] [] Hab; try (exfalso; now apply Hab); discriminate.
Qed.

(** ** The last-known state *)

Lemma last_nonempty {A} (x : A) l d d' : last (x :: l) d = last (x :: l) d'.
Proof.
  revert x. induction l as [| y l IH]; intros x; [reflexivity |].
  change (last (x :: y :: l) d) with (last (y :: l) d).
  change (last (x :: y :: l) d') with (last (y :: l) d'). apply IH.
Qed.

Lemma fold_next_state os :
  forall last_state,
    fold_left next_state os last_state =
    last (map Some (definitive os)) last_state.
Proof.
  induction os as [| o os IH]; intros last_state; [reflexivity |].
  cbn [fold_left]. rewrite IH. destruct o as [s |]; [| reflexivity].
  cbn [next_state]. change (definitive (Some s :: os)) with (s :: definitive os).
  cbn [map]. destruct (map Some (definitive os)) as [| o l]; [reflexivity |].
  change (last (Some s :: o :: l) last_state) with (last (o :: l) last_state).
  apply last_nonempty.
Qed.

Lemma main_loop_last_state fd cycles :
  forall last_state l,
    snd (main_loop fd last_state cycles) = Ok l ->
    l = fold_left next_state (polls_of (fst (main_loop fd last_state cycles)))
          last_state.
Proof.
  induction cycles as [| c rest IH]; intros last_state l.
  - cbn. now intros [= ->].
  - cbn [main_loop]. rewrite snd_bind, fst_bind, polls_of_app, fold_left_app.
    pose proof (loop_body_events fd last_state c) as Hev.
    destruct (snd (loop_body fd last_state c)) as [l' |] eqn:Hbody;
      [| discriminate].
    destruct (snd (get_headset_state fd (c_poll c))) as [o | e] eqn:Ho.
    + destruct Hev as [_ Hnext]. rewrite (Hnext l' eq_refl).
      rewrite (loop_body_polls fd last_state c o Ho). cbn [fold_left].
      apply IH.
    + destruct Hev as [_ Hraise]. congruence.
Qed.

(** X6.  While the loop is running, its last-known state is the most
    recent poll outcome that was a state, and the initial [None] as long
    as there has been none: an Unknown outcome never replaces it. *)
Theorem main_loop_tracks_last_definitive :
  forall (fd : Z) (cycles : list cycle_io) (l : option HeadsetState),
    snd (main_loop fd None cycles) = Ok l ->
    l = last (map Some (definitive (polls_of (fst (main_loop fd None cycles)))))
          None.
Proof.
  intros fd cycles l Hl.
  rewrite (main_loop_last_state fd cycles None l Hl). apply fold_next_state.
Qed.

(** The loop never prints the shutdown line. *)
Lemma find_sink_id_no_shutdown name_pattern status :
  avoids is_shutdown (find_sink_id name_pattern status).
Proof.
  unfold find_sink_id, print, emit.
  apply avoids_try_except.
  - apply avoids_bind; [now apply avoids_perform |].
    intros stdout. unfold avoids. now rewrite find_sink_id_loop_silent.
  - intros e. repeat avoids_step.
Qed.

Lemma switch_audio_no_shutdown pattern friendly io :
  avoids is_shutdown (switch_audio pattern friendly io).
Proof.
  unfold switch_audio, print, emit.
  apply avoids_bind; [now apply avoids_perform |]. intros _.
  apply avoids_bind; [apply find_sink_id_no_shutdown |].
  intros [id |]; repeat avoids_step.
Qed.

Lemma loop_body_no_shutdown fd last_state c :
  avoids is_shutdown (loop_body fd last_state c).
Proof.
  unfold avoids. rewrite loop_body_filter
    by (intros [] H; try discriminate H; try reflexivity;
        destruct l; try discriminate H; reflexivity).
  destruct (snd (get_headset_state fd (c_poll c))) as [[s |] | e];
    try reflexivity.
  destruct (state_ne (Some s) last_state); [| reflexivity].
  apply switch_audio_no_shutdown.
Qed.

Lemma main_loop_no_shutdown fd cycles :
  forall last_state, avoids is_shutdown (main_loop fd last_state cycles).
Proof.
  induction cycles as [| c rest IH]; intros last_state; [reflexivity |].
  cbn [main_loop]. apply avoids_bind; [apply loop_body_no_shutdown | apply IH].
Qed.

(** ** The process around the loop *)

Lemma main_opened env cycles path fd :
  snd (find_hidraw_device (env_devices env)) = Ok (Some path) ->
  PyStr.falsy path = false ->
  env_open env = Ok fd ->
  main env cycles =
  match main_loop fd None cycles with
  | (tr, Ok l) => (startup_trace env path ++ tr, Running l)
  | (tr, Raise e) =>
      if is_KeyboardInterrupt e
      then (startup_trace env path ++ tr ++ [Print LogShuttingDown; OsClose fd],
            Exited 0)
      else (startup_trace env path ++ tr ++ [OsClose fd],
            Exited (exit_code (Raise e)))
  end.
Proof.
  intros Hfound Hpath Hopen. unfold main, startup_trace.
  destruct (find_hidraw_device (env_devices env)) as [trf rf].
  cbn [snd] in Hfound. subst rf. cbn [print emit bind fst].
  rewrite Hpath, Hopen. cbn [perform try_except bind ret].
  destruct (main_loop fd None cycles) as [trl [l | e]].
  - cbn [app]. now rewrite <- !app_assoc.
  - cbn [try_except]. destruct (is_KeyboardInterrupt e) eqn:Ek.
    + cbn [print emit try_finally exit_code app].
      now rewrite <- !app_assoc.
    + cbn [print emit try_finally app]. now rewrite <- !app_assoc.
Qed.

Lemma find_hidraw_device_loop_logs P files devices :
  (forall d, P (Print (LogSkipping d)) = false) ->
  (forall d, P (Print (LogFound d)) = false) ->
  avoids P (find_hidraw_device_loop files devices).
Proof.
  intros Hskip Hfound. induction devices as [| device rest IH]; [reflexivity |].
  cbn [find_hidraw_device_loop].
  destruct (files (uevent_path_of device)) as [| | text]; try exact IH.
  cbv zeta.
  destruct (negb (PyStr.contains VENDOR_ID (text_upper text))); [exact IH |].
  destruct (negb (existsb _ PRODUCT_IDS)); [exact IH |].
  destruct (negb (PyStr.contains "INPUT4" (text_upper text))).
  - apply avoids_bind; [apply avoids_perform, Hskip | intros _; exact IH].
  - apply avoids_bind;
      [apply avoids_perform, Hfound | intros _; apply avoids_ret].
Qed.

Lemma startup_trace_avoids P env path :
  (forall ev, is_close ev = false -> is_shutdown ev = false ->
              is_key ev = false -> P ev = false) ->
  filter P (startup_trace env path) = [].
Proof.
  intros Hoff. unfold startup_trace. cbn [filter].
  rewrite (Hoff (Print LogStarting)) by reflexivity. rewrite filter_app.
  pose proof (find_hidraw_device_loop_logs P
                (dev_files (env_devices env))
                (sorted (dev_nodes (env_devices env)))
                (fun d => Hoff (Print (LogSkipping d)) eq_refl eq_refl eq_refl)
                (fun d => Hoff (Print (LogFound d)) eq_refl eq_refl eq_refl))
    as Hfind.
  unfold avoids in Hfind. fold (find_hidraw_device (env_devices env)) in Hfind.
  rewrite Hfind. cbn [app filter].
  now rewrite !Hoff by reflexivity.
Qed.

(** X7.  On a machine where the node is found and opened, iterations whose
    errors are handled ones (any [Exception] of the write, the wait or the
    read; a timeout; any report; a listing that fails or names no sink; any
    exit status of [wpctl set-default]) never end the process: after any
    number of them [main] is still in its loop, has polled once in each
    iteration and has not closed the descriptor. *)
Theorem main_survives_handled_errors :
  forall (env : main_env) (cycles : list cycle_io) (path : string) (fd : Z),
    snd (find_hidraw_device (env_devices env)) = Ok (Some path) ->
    PyStr.falsy path = false ->
    env_open env = Ok fd ->
    Forall handled_errors cycles ->
    (exists last_state, snd (main env cycles) = Running last_state) /\
    List.length (polls_of (fst (main env cycles))) = List.length cycles /\
    ~ In (OsClose fd) (fst (main env cycles)).
Proof.
  intros env cycles path fd Hfound Hpath Hopen Hcycles.
  rewrite (main_opened env cycles path fd Hfound Hpath Hopen).
  destruct (main_loop_keeps_running fd cycles Hcycles None) as [[l Hl] Hlen].
  pose proof (main_loop_no_close fd cycles None) as Hclose.
  unfold avoids in Hclose.
  destruct (main_loop fd None cycles) as [tr r]. cbn [snd fst] in *. subst r.
  cbn [fst snd]. split; [now exists l |]. split.
  - rewrite polls_of_app, length_app, Hlen.
    rewrite <- polls_of_key_events. unfold key_events.
    rewrite startup_trace_avoids by auto. reflexivity.
  - apply (filter_nil_not_in is_close); [| reflexivity].
    rewrite filter_app, Hclose, app_nil_r.
    apply startup_trace_avoids; auto.
Qed.

(** X8.  Whatever exception leaves the loop, the descriptor is closed, once
    and as the last action of the process.  After an interrupt the shutdown
    line precedes the close and the exit status is 0; after an [Exception]
    nothing is printed and the exit status is 1. *)
Theorem main_closes_descriptor :
  forall (env : main_env) (cycles : list cycle_io) (path : string) (fd : Z)
         (e : exn),
    snd (find_hidraw_device (env_devices env)) = Ok (Some path) ->
    PyStr.falsy path = false ->
    env_open env = Ok fd ->
    snd (main_loop fd None cycles) = Raise e ->
    exists tr,
      ~ In (OsClose fd) tr /\
      ~ In (Print LogShuttingDown) tr /\
      (e = KeyboardInterrupt ->
       main env cycles =
       (tr ++ [Print LogShuttingDown; OsClose fd], Exited 0)) /\
      (is_Exception e = true ->
       main env cycles = (tr ++ [OsClose fd], Exited 1)).
Proof.
  intros env cycles path fd e Hfound Hpath Hopen Hloop.
  rewrite (main_opened env cycles path fd Hfound Hpath Hopen).
  pose proof (main_loop_no_close fd cycles None) as Hclose.
  pose proof (main_loop_no_shutdown fd cycles None) as Hshut.
  unfold avoids in Hclose, Hshut.
  destruct (main_loop fd None cycles) as [tr r]. cbn [snd fst] in *. subst r.
  exists (startup_trace env path ++ tr). repeat split.
  - apply (filter_nil_not_in is_close); [| reflexivity].
    rewrite filter_app, Hclose, app_nil_r.
    apply startup_trace_avoids; auto.
  - apply (filter_nil_not_in is_shutdown); [| reflexivity].
    rewrite filter_app, Hshut, app_nil_r.
    apply startup_trace_avoids; auto.
  - intros ->. cbn [is_KeyboardInterrupt]. now rewrite <- app_assoc.
  - intros He. destruct e; try discriminate He; cbn [is_KeyboardInterrupt];
      now rewrite <- app_assoc.
Qed.

(** X9.  When the node found cannot be opened, the process ends there: the
    loop is never entered, whatever the iterations would have been.  Only a
    [PermissionError] is reported, with the two lines on the udev rules and
    exit status 1; any other [Exception] of [os.open] (the node vanished,
    the node is busy) is caught nowhere and ends the process with status 1
    and no line of the script. *)
Theorem main_open_failure :
  forall (env : main_env) (cycles : list cycle_io) (path : string) (e : exn),
    snd (find_hidraw_device (env_devices env)) = Ok (Some path) ->
    PyStr.falsy path = false ->
    env_open env = Raise e ->
    is_Exception e = true ->
    main env cycles =
    (Print LogStarting ::
       fst (find_hidraw_device (env_devices env)) ++
       Print (LogUsing path) :: OsOpen path ::
       (if is_PermissionError e
        then [Print (LogPermissionDenied path); Print LogReplugHint]
        else []),
     Exited 1).
Proof.
  intros env cycles path e Hfound Hpath Hopen He. unfold main.
  destruct (find_hidraw_device (env_devices env)) as [trf rf].
  cbn [snd] in Hfound. subst rf. cbn [print emit bind fst].
  rewrite Hpath, Hopen. cbn [perform try_except].
  destruct e; try discriminate He; cbn; rewrite <- ?app_assoc; reflexivity.
Qed.

(** ** Charging *)

Lemma main_loop_polls_Forall (Q : option HeadsetState -> Prop) fd cycles :
  Forall (fun c => forall o,
              snd (get_headset_state fd (c_poll c)) = Ok o -> Q o) cycles ->
  forall last_state,
    Forall Q (polls_of (fst (main_loop fd last_state cycles))).
Proof.
  induction 1 as [| c rest Hc _ IH]; intros last_state; [constructor |].
  cbn [main_loop]. rewrite fst_bind, polls_of_app. apply Forall_app.
  destruct (snd (get_headset_state fd (c_poll c))) as [o | e] eqn:Ho.
  - rewrite (loop_body_polls fd last_state c o Ho). split.
    + constructor; [now apply Hc | constructor].
    + destruct (snd (loop_body fd last_state c)); [apply IH | constructor].
  - rewrite (loop_body_poll_raises fd last_state c e Ho). cbn [fst snd].
    rewrite <- polls_of_key_events, get_headset_state_quiet.
    split; constructor.
Qed.

(** A poll returns a state only when the node answered. *)
Lemma get_headset_state_some_answered fd io s :
  snd (get_headset_state fd io) = Ok (Some s) ->
  exists data, answered io data.
Proof.
  unfold get_headset_state, os_write, select_readable, os_read, perform,
    answered.
  destruct (io_write io) as [n | e]; cbn [bind try_except fst snd];
    [| destruct (is_Exception e); cbn; discriminate].
  destruct (io_select io) as [[t |] | e]; cbn [bind try_except fst snd];
    [| cbn; discriminate | destruct (is_Exception e); cbn; discriminate].
  destruct (t <=? 500)%N eqn:Ht; cbn [bind try_except fst snd negb];
    [| cbn; discriminate].
  destruct (io_read io) as [data | e]; cbn [bind try_except fst snd];
    [| destruct (is_Exception e); cbn; discriminate].
  intros _. exists data. apply N.leb_le in Ht.
  repeat split; [now exists n | now exists t].
Qed.

Lemma poll_outcome_of_report fd c o :
  snd (get_headset_state fd (c_poll c)) = Ok o ->
  (forall data,
      answered (c_poll c) data ->
      exists b, nth_error data 15 = Some b /\ (b = x08 \/ b = x02)) ->
  o = None \/ o = Some ON.
Proof.
  intros Ho Hrep. destruct o as [s |]; [right | now left].
  destruct (get_headset_state_some_answered fd (c_poll c) s Ho) as [data Hans].
  destruct (Hrep data Hans) as [b [Hb Hcode]].
  rewrite (get_headset_state_answered fd (c_poll c) data Hans) in Ho.
  cbv zeta in Ho.
  assert (Hnth : nth_error (firstn 128 data) 15 = Some b).
  { rewrite nth_error_firstn. cbn. exact Hb. }
  rewrite Hnth in Ho.
  destruct (List.length (firstn 128 data) <? 16)%nat; [discriminate |].
  destruct Hcode as [-> | ->]; cbn in Ho; congruence.
Qed.

Lemma runs_all_same s l :
  Forall (fun x => x = s) l -> List.length (runs l) <= 1.
Proof.
  induction 1 as [| x l Hx Hl IH]; [cbn; lia |].
  destruct l as [| y l]; [cbn; lia |].
  rewrite runs_cons_cons. inversion Hl; subst.
  destruct s; exact IH.
Qed.

(** X10.  As long as every report that is read carries 0x08 or 0x02 at
    offset 15, the loop calls the switch at most once: going from online to
    charging and back is no change of state. *)
Theorem charging_is_online :
  forall (fd : Z) (cycles : list cycle_io),
    Forall (fun c =>
              forall data,
                answered (c_poll c) data ->
                exists b, nth_error data 15 = Some b /\ (b = x08 \/ b = x02))
      cycles ->
    List.length (switches_of (fst (main_loop fd None cycles))) <= 1.
Proof.
  intros fd cycles Hcycles.
  rewrite main_loop_switches, length_map.
  apply (runs_all_same ON).
  assert (Hpolls : Forall (fun o => o = None \/ o = Some ON)
                     (polls_of (fst (main_loop fd None cycles)))).
  { apply main_loop_polls_Forall.
    eapply Forall_impl; [| exact Hcycles].
    intros c Hc o Ho. apply (poll_outcome_of_report fd c o Ho).
    exact Hc. }
  induction Hpolls as [| o os Ho _ IH]; [constructor |].
  destruct Ho as [-> | ->]; [exact IH |].
  change (definitive (Some ON :: os)) with (ON :: definitive os).
  constructor; [reflexivity | exact IH].
Qed.

Lemma reporting_report status data :
  answered (c_poll (reporting status)) data -> nth_error data 15 = Some status.
Proof.
  intros (_ & _ & Hread). cbn in Hread. injection Hread as <-. reflexivity.
Qed.

(** ** Metadata paths *)

Lemma replace_from_absent old new s :
  PyStr.contains old s = false -> PyStr.replace_from old new 0 s = s.
Proof.
  induction s as [| c s IH]; [reflexivity |].
  cbn [PyStr.contains PyStr.replace_from]. intros H.
  apply orb_false_iff in H. destruct H as [Hp Hc].
  rewrite Hp. f_equal. now apply IH.
Qed.

Lemma append_cancel_l (p a b : string) :
  (p ++ a)%string = (p ++ b)%string -> a = b.
Proof.
  induction p as [| c p IH]; cbn [append]; [auto |].
  intros [= H]. now apply IH.
Qed.

(** X11.  For a node [/dev/hidraw] followed by a suffix in which
    [/dev/hidraw] does not occur again (a number, in particular), the
    metadata the locator reads is
    [/sys/class/hidraw/hidraw<suffix>/device/uevent]; two such nodes with
    different suffixes never share their metadata file. *)
Theorem uevent_path_of_node :
  forall (n : string),
    PyStr.contains "/dev/hidraw" n = false ->
    uevent_path_of ("/dev/hidraw" ++ n) =
    ("/sys/class/hidraw/hidraw" ++ n ++ "/device/uevent")%string /\
    forall m,
      PyStr.contains "/dev/hidraw" m = false ->
      uevent_path_of ("/dev/hidraw" ++ m) = uevent_path_of ("/dev/hidraw" ++ n) ->
      m = n.
Proof.
  assert (Hpath : forall n,
             PyStr.contains "/dev/hidraw" n = false ->
             uevent_path_of ("/dev/hidraw" ++ n) =
             ("/sys/class/hidraw/hidraw" ++ n ++ "/device/uevent")%string).
  { intros n Hn. unfold uevent_path_of, PyStr.replace.
    assert (Hrep : PyStr.replace_from "/dev/hidraw" EmptyString 0
                     ("/dev/hidraw" ++ n) = n).
    { cbn -[PyStr.contains].
      assert (Hempty : prefix EmptyString n = true) by (destruct n; reflexivity).
      rewrite Hempty. now apply replace_from_absent. }
    rewrite Hrep. rewrite !append_assoc. reflexivity. }
  intros n Hn. split; [now apply Hpath |].
  intros m Hm Heq. rewrite (Hpath n Hn), (Hpath m Hm) in Heq.
  apply append_cancel_l in Heq.
  now apply append_cancel_r in Heq.
Qed.

(** ** Identifiers in the listing *)

(** X12.  A line of the listing whose text before the first dot is plain
    text that ends in white space (the tree drawing, the mark of the
    default sink) followed by digits gives what [int] makes of the digits,
    whatever follows the dot: the number they spell when they are no more
    than [INT_MAX_STR_DIGITS], and the [ValueError] of [int] when [int]
    refuses them; for a number [n] printed the usual way in no more digits
    than that, the identifier read is [n] itself, so that the text handed
    to [wpctl set-default] is the text of the listing. *)
Theorem sink_number_reads_identifier :
  forall (lead rest : string),
    plain lead ->
    PyStr.contains "." lead = false ->
    ends_blank lead = true ->
    (forall ds,
        PyStr.isdigit ds = true ->
        (String.length ds <= INT_MAX_STR_DIGITS)%nat ->
        sink_number (lead ++ ds ++ String "." rest) = Ok (Some (PyStr.int ds))) /\
    (forall ds,
        PyStr.isdigit ds = true ->
        text_int ds = None ->
        sink_number (lead ++ ds ++ String "." rest) = Raise ValueError) /\
    (forall n,
        (String.length (PyStr.str n) <= INT_MAX_STR_DIGITS)%nat ->
        sink_number (lead ++ PyStr.str n ++ String "." rest) = Ok (Some n)).
Proof.
  intros lead rest Hplain Hdot Hblank. split; [| split].
  - intros ds Hds Hlen.
    rewrite (sink_number_of_digits lead ds rest Hplain Hdot Hblank Hds).
    now rewrite (int_plain ds Hds Hlen).
  - intros ds Hds Hint.
    rewrite (sink_number_of_digits lead ds rest Hplain Hdot Hblank Hds).
    now rewrite Hint.
  - intros n Hlen. apply sink_number_entry. exists lead, rest.
    repeat split; assumption.
Qed.

(** ** Nodes that do not qualify *)

Lemma filter_insert_sorted p x l :
  StronglySorted str_le l ->
  filter p (insert_sorted x l) =
  if p x then insert_sorted x (filter p l) else filter p l.
Proof.
  induction 1 as [| y l Hl IH Hy]; cbn [insert_sorted filter].
  - destruct (p x); reflexivity.
  - destruct (String.leb x y) eqn:Exy; cbn [filter].
    + destruct (p x) eqn:Epx; [| reflexivity].
      destruct (p y) eqn:Epy; cbn [insert_sorted]; [now rewrite Exy |].
      (* [y] is dropped: [x] still goes in front of what is kept of [l] *)
      assert (Hall : Forall (str_le x) (filter p l)).
      { apply Forall_forall. intros z Hz. apply filter_In in Hz.
        rewrite Forall_forall in Hy.
        apply (str_le_trans x y z Exy). apply Hy. apply Hz. }
      destruct (filter p l) as [| z zs]; [reflexivity |].
      cbn [insert_sorted]. inversion Hall as [| ? ? Hxz _]; subst.
      unfold str_le in Hxz. now rewrite Hxz.
    + rewrite IH. destruct (p x), (p y); cbn [insert_sorted];
        rewrite ?Exy; reflexivity.
Qed.

Lemma sorted_filter p l : sorted (filter p l) = filter p (sorted l).
Proof.
  induction l as [| x l IH]; [reflexivity |].
  cbn [sorted fold_right filter]. fold (sorted l).
  rewrite (filter_insert_sorted p x (sorted l) (sorted_StronglySorted l)).
  destruct (p x); [| exact IH].
  cbn [sorted fold_right]. fold (sorted (filter p l)). now rewrite IH.
Qed.

Lemma find_filter {A} (p : A -> bool) l : find p (filter p l) = find p l.
Proof.
  induction l as [| x l IH]; [reflexivity |]. cbn [filter find].
  destruct (p x) eqn:E; [cbn [find]; now rewrite E | exact IH].
Qed.

(** X13.  The node returned depends on the qualifying nodes only: listing
    or not listing nodes that do not qualify (other devices, other
    interfaces of the headset, nodes without readable metadata) never
    changes it. *)
Theorem find_hidraw_device_ignores_others :
  forall (files : string -> file_state) (nodes : list string),
    snd (find_hidraw_device {| dev_nodes := nodes; dev_files := files |}) =
    snd (find_hidraw_device
           {| dev_nodes := filter (qualifies files) nodes;
              dev_files := files |}).
Proof.
  intros files nodes. unfold find_hidraw_device. cbn [dev_nodes dev_files].
  rewrite !find_hidraw_device_loop_find, sorted_filter, find_filter.
  reflexivity.
Qed.

(** ** The first switch *)


(** ** Runs in two parts *)

(** A run over [cycles ++ cycles'] is the run over [cycles] followed, if
    the loop is still running, by the run over [cycles'] from the state
    reached. *)
Lemma main_loop_app fd cycles cycles' :
  forall last_state,
    main_loop fd last_state (cycles ++ cycles') =
    bind (main_loop fd last_state cycles)
      (fun l => main_loop fd l cycles').
Proof.
  induction cycles as [| c rest IH]; intros last_state.
  - cbn [app main_loop]. now rewrite bind_ret_l.
  - cbn [app main_loop]. rewrite bind_assoc.
    apply bind_ext. intros l. apply IH.
Qed.

Lemma loop_body_result fd last_state c :
  handled_before_sleep c ->
  exists o,
    snd (get_headset_state fd (c_poll c)) = Ok o /\
    snd (loop_body fd last_state c) =
    match c_sleep c with
    | Ok _ => Ok (next_state last_state o)
    | Raise e => Raise e
    end.
Proof.
  intros (Hw & Hs & Hr & Hst & Hsd).
  destruct (get_headset_state_returns fd (c_poll c) Hw Hs Hr) as [o Ho].
  exists o. split; [exact Ho |].
  destruct o as [s |].
  - destruct (state_ne (Some s) last_state) eqn:Hne.
    + rewrite (loop_body_changed fd last_state c s Ho Hne). cbn [snd].
      now rewrite (switch_audio_returns _ _ _ Hst Hsd).
    + rewrite (loop_body_unchanged fd last_state c _ Ho)
        by (unfold fired; now rewrite Hne).
      cbn [snd next_state]. now rewrite (state_ne_false _ _ Hne).
  - now rewrite (loop_body_unchanged fd last_state c _ Ho eq_refl).
Qed.

(** X15.  An interrupt that arrives while the loop sleeps, after any number
    of iterations with handled errors, ends the process in that iteration:
    [main] exits with status 0 having polled once in each iteration up to
    and including that one, and no later iteration takes place. *)
Theorem main_interrupted_while_sleeping :
  forall (env : main_env) (path : string) (fd : Z)
         (before : list cycle_io) (c : cycle_io) (after : list cycle_io),
    snd (find_hidraw_device (env_devices env)) = Ok (Some path) ->
    PyStr.falsy path = false ->
    env_open env = Ok fd ->
    Forall handled_errors before ->
    handled_before_sleep c ->
    c_sleep c = Raise KeyboardInterrupt ->
    snd (main env (before ++ c :: after)) = Exited 0 /\
    List.length (polls_of (fst (main env (before ++ c :: after)))) =
    S (List.length before) /\
    main env (before ++ c :: after) = main env (before ++ [c]).
Proof.
  intros env path fd before c after Hfound Hpath Hopen Hbefore Hc Hsleep.
  assert (Hrun : forall rest,
             main_loop fd None (before ++ c :: rest) =
             (fst (main_loop fd None before) ++
                fst (loop_body fd (last (map Some (definitive (polls_of (fst (main_loop fd None before))))) None) c),
              Raise KeyboardInterrupt)).
  { intros rest. rewrite main_loop_app.
    destruct (main_loop_keeps_running fd before Hbefore None) as [[l Hl] _].
    pose proof (main_loop_last_state fd before None l Hl) as Hlast.
    rewrite fold_next_state in Hlast. rewrite <- Hlast.
    destruct (main_loop fd None before) as [tr r]. cbn [snd fst] in *.
    subst r. cbn [bind main_loop].
    destruct (loop_body_result fd l c Hc) as [o [_ Hres]].
    rewrite Hsleep in Hres.
    destruct (loop_body fd l c) as [trc rc]. cbn [snd fst] in *. subst rc.
    reflexivity. }
  assert (Hmain : forall rest,
             main env (before ++ c :: rest) =
             (startup_trace env path ++
                (fst (main_loop fd None before) ++
                 fst (loop_body fd (last (map Some (definitive (polls_of (fst (main_loop fd None before))))) None) c)) ++
                [Print LogShuttingDown; OsClose fd],
              Exited 0)).
  { intros rest. rewrite (main_opened env _ path fd Hfound Hpath Hopen).
    now rewrite Hrun. }
  split; [now rewrite Hmain |]. split; [| now rewrite (Hmain after), (Hmain [])].
  rewrite Hmain. cbn [fst]. rewrite !polls_of_app, !length_app.
  destruct (main_loop_keeps_running fd before Hbefore None) as [_ Hlen].
  rewrite Hlen.
  destruct (loop_body_result fd
              (last (map Some (definitive (polls_of (fst (main_loop fd None before))))) None)
              c Hc) as [o [Ho _]].
  rewrite (loop_body_polls fd _ c o Ho).
  rewrite <- polls_of_key_events. unfold key_events.
  rewrite startup_trace_avoids by auto. cbn. lia.
Qed.

(** ** The text of the listing *)







Lemma prefix_nil_r pat : prefix pat EmptyString = true -> pat = EmptyString.
Proof. destruct pat; [reflexivity | discriminate]. Qed.

Lemma contains_nil pat s : pat = EmptyString -> PyStr.contains pat s = true.
Proof. intros ->. destruct s; reflexivity. Qed.

Lemma prefix_app_r pat s r : prefix pat s = true -> prefix pat (s ++ r) = true.
Proof.
  revert s. induction pat as [| c pat IH]; intros s H.
  - destruct (s ++ r)%string; reflexivity.
  - destruct s as [| c' s]; [discriminate |]. cbn [append prefix] in *.
    destruct (ascii_dec c c'); [now apply IH | discriminate].
Qed.

Lemma split_head_prefix sep s h t :
  PyStr.split sep s = h :: t -> exists r, s = (h ++ r)%string.
Proof.
  revert h t. induction s as [| c s IH]; intros h t; cbn [PyStr.split].
  - intros [= <- _]. now exists EmptyString.
  - destruct (Ascii.eqb c sep).
    + intros [= <- _]. now exists (String c s).
    + destruct (PyStr.split sep s) as [| h' t'] eqn:E.
      * intros [= <- _]. exfalso. now apply (split_nonempty sep s).
      * intros [= <- _]. destruct (IH h' t' eq_refl) as [r ->].
        now exists r.
Qed.

(** What occurs in a line occurs in the text. *)
Lemma contains_line pat sep s line :
  In line (PyStr.split sep s) ->
  PyStr.contains pat line = true -> PyStr.contains pat s = true.
Proof.
  revert line. induction s as [| c s IH]; intros line; cbn [PyStr.split].
  - intros [<- | []]. auto.
  - destruct (Ascii.eqb c sep).
    + intros [<- | Hin] Hc.
      * cbn [PyStr.contains] in Hc. rewrite orb_false_r in Hc.
        apply contains_nil. now apply prefix_nil_r.
      * cbn [PyStr.contains]. rewrite (IH line Hin Hc). apply orb_true_r.
    + destruct (PyStr.split sep s) as [| h t] eqn:E;
        [exfalso; now apply (split_nonempty sep s) |].
      destruct (split_head_prefix sep s h t E) as [r Hr].
      intros [<- | Hin] Hc.
      * cbn [PyStr.contains] in Hc |- *. apply orb_true_iff in Hc.
        destruct Hc as [Hp | Hc].
        -- rewrite Hr. change (String c (h ++ r)) with (String c h ++ r)%string.
           now rewrite (prefix_app_r pat (String c h) r Hp).
        -- rewrite (IH h (or_introl eq_refl) Hc). apply orb_true_r.
      * cbn [PyStr.contains]. rewrite (IH line (or_intror Hin) Hc).
        apply orb_true_r.
Qed.

Lemma section_from_no_header lines :
  Forall (fun l => PyStr.contains "Sinks:" l = false) lines ->
  section_from false lines = [].
Proof.
  induction 1 as [| l lines Hl _ IH]; [reflexivity |].
  cbn [section_from andb]. now rewrite Hl.
Qed.

Lemma find_sink_id_ok_trace name_pattern stdout r :
  scan_section name_pattern (sinks_section stdout) = Ok r ->
  find_sink_id name_pattern (Ok stdout) = ([Run ["wpctl"; "status"]], Ok r).
Proof.
  intros Hscan. unfold find_sink_id. cbn [perform bind].
  pose proof (find_sink_id_loop_silent name_pattern
                (PyStr.split PyStr.LF stdout) false) as Hsilent.
  pose proof (find_sink_id_loop_scan name_pattern
                (PyStr.split PyStr.LF stdout) false) as Hloop.
  fold (sinks_section stdout) in Hloop. rewrite Hscan in Hloop.
  destruct (find_sink_id_loop name_pattern false (PyStr.split PyStr.LF stdout))
    as [tr' r']. cbn [fst snd] in *. subst tr' r'. reflexivity.
Qed.

(** X17.  When the output of [wpctl status] nowhere contains [Sinks:] (an
    empty output, an error text, a listing cut short), [find_sink_id]
    returns [None] for every pattern, and [switch_audio] prints its warning
    and sets no default. *)
Theorem find_sink_id_without_header :
  forall (name_pattern friendly stdout : string) (io : switch_io),
    PyStr.contains "Sinks:" stdout = false ->
    io_status io = Ok stdout ->
    snd (find_sink_id name_pattern (Ok stdout)) = Ok None /\
    switch_audio name_pattern friendly io =
    ([SwitchCalled name_pattern friendly; Run ["wpctl"; "status"];
      Print (LogNoSink name_pattern)], Ok tt).
Proof.
  intros name_pattern friendly stdout io Hno Hio.
  assert (Hsec : sinks_section stdout = []).
  { apply section_from_no_header. apply Forall_forall. intros line Hin.
    destruct (PyStr.contains "Sinks:" line) eqn:E; [| reflexivity].
    rewrite (contains_line "Sinks:" PyStr.LF stdout line Hin E) in Hno.
    discriminate. }
  assert (Hfind : find_sink_id name_pattern (Ok stdout) =
                  ([Run ["wpctl"; "status"]], Ok None)).
  { apply find_sink_id_ok_trace. now rewrite Hsec. }
  split; [now rewrite Hfind |].
  unfold switch_audio. rewrite Hio, Hfind. reflexivity.
Qed.

(** ** Lines that stop the lookup *)

Lemma scan_section_raise name_pattern pre line post e :
  Forall (passed_over name_pattern) pre ->
  matches name_pattern line = true ->
  sink_number line = Raise e ->
  scan_section name_pattern (pre ++ line :: post) = Raise e.
Proof.
  intros Hpre Hm Hn.
  induction Hpre as [| l pre Hl _ IH]; cbn [app scan_section].
  - now rewrite Hm, Hn.
  - destruct Hl as [Hl | Hl]; rewrite Hl; [exact IH |].
    destruct (matches name_pattern l); exact IH.
Qed.

Lemma sink_number_raises line e :
  sink_number line = Raise e -> e = IndexError \/ e = ValueError.
Proof.
  unfold sink_number.
  destruct (2 <=? List.length (PyStr.split "." line))%nat; [| discriminate].
  destruct (rev _) as [| w ws]; [intros [= <-]; now left |].
  destruct (text_isdigit w); [| discriminate].
  destruct (text_int w); [discriminate | intros [= <-]; now right].
Qed.

Lemma sink_number_no_word lead rest :
  plain lead ->
  PyStr.contains "." lead = false ->
  PyStr.words lead = [] ->
  sink_number (lead ++ String "." rest) = Raise IndexError.
Proof.
  intros Hplain Hdot Hwords. unfold sink_number.
  rewrite (split_at_first_dot lead rest Hdot). cbn [hd List.length].
  assert (Hlen : (2 <=? S (List.length (PyStr.split "." rest)))%nat = true).
  { pose proof (split_nonempty "." rest) as Hsp.
    destruct (PyStr.split "." rest); [congruence | reflexivity]. }
  cbv zeta. rewrite Hlen.
  rewrite (strip_plain _ Hplain), (words_plain _ (plain_strip _ Hplain)).
  now rewrite words_strip, Hwords.
Qed.

(** X19.  When the first line of the section of the sinks that passes the
    two tests and is not passed over makes the reading of its identifier
    raise (the [IndexError] of a line with nothing but white space before
    its first dot, the [ValueError] of [int]), the lookup stops there:
    [find_sink_id] prints the exception and returns [None] whatever lines
    follow, and [switch_audio] prints its warning and runs no
    [wpctl set-default]. *)
Theorem find_sink_id_gives_up :
  forall (name_pattern friendly stdout : string) (io : switch_io)
         (pre post : list string) (line : string) (e : exn),
    io_status io = Ok stdout ->
    sinks_section stdout = pre ++ line :: post ->
    Forall (passed_over name_pattern) pre ->
    matches name_pattern line = true ->
    sink_number line = Raise e ->
    (e = IndexError \/ e = ValueError) /\
    find_sink_id name_pattern (Ok stdout) =
    ([Run ["wpctl"; "status"]; Print (LogFindSinkError e)], Ok None) /\
    switch_audio name_pattern friendly io =
    ([SwitchCalled name_pattern friendly; Run ["wpctl"; "status"];
      Print (LogFindSinkError e); Print (LogNoSink name_pattern)], Ok tt) /\
    (forall lead rest,
        plain lead ->
        PyStr.contains "." lead = false ->
        PyStr.words lead = [] ->
        sink_number (lead ++ String "." rest) = Raise IndexError).
Proof.
  intros name_pattern friendly stdout io pre post line e Hio Hsec Hpre Hm Hn.
  assert (Hfind : find_sink_id name_pattern (Ok stdout) =
                  ([Run ["wpctl"; "status"]; Print (LogFindSinkError e)],
                   Ok None)).
  { rewrite find_sink_id_listing, Hsec.
    now rewrite (scan_section_raise _ _ _ _ _ Hpre Hm Hn). }
  split; [now apply (sink_number_raises line) |].
  split; [exact Hfind |].
  split; [| apply sink_number_no_word].
  unfold switch_audio. rewrite Hio, Hfind. reflexivity.
Qed.

End Lookup.

(** * Instances

    The theorems above at concrete inputs, in plain text, where every
    interpreter computes what [ascii_text] does. *)

#[local] Existing Instance ascii_text.

Lemma get_headset_state_status_byte_witness :
  snd (get_headset_state 3 (answering (report x08))) = Ok (Some ON).
Proof.
  destruct (get_headset_state_status_byte 3 (answering (report x08))
              (report x08) (answering_answered _)) as [Hlong _].
  destruct (Hlong (Nat.le_refl 16)) as [b [Hb [_ [Hon _]]]].
  apply Hon. left.
  injection Hb as <-. reflexivity.
Defined.

Lemma get_headset_state_timeout_witness :
  get_headset_state 3
    {| io_write := Ok 31; io_select := Ok NeverReadable;
       io_read := Raise OSError |} =
  ([OsWrite 3 POLL_COMMAND; Select 3 500 500], Ok None).
Proof.
  apply (get_headset_state_timeout 3 _ 31 NeverReadable);
    [reflexivity | reflexivity | exact I].
Defined.

Lemma main_loop_edge_triggered_witness :
  switches_of
    (fst (main_loop 3 None
            (map (calm_cycle sample_listing) [Some ON; Some ON; None; Some ON]))) =
  [(HEADPHONE_SINK_NAME, "Headphones")] /\
  switches_of
    (fst (loop_body 3 (Some ON) (calm_cycle sample_listing (Some ON)))) = [].
Proof.
  destruct (main_loop_edge_triggered 3
              (map (calm_cycle sample_listing) [Some ON; Some ON; None; Some ON]))
    as [Hruns [Hpolls [Hsame _]]].
  split.
  - rewrite Hruns, Hpolls. reflexivity.
  - apply (Hsame (calm_cycle sample_listing (Some ON)) ON). reflexivity.
Defined.

Lemma main_loop_scenario_witness :
  switches_of
    (fst (main_loop 3 None
            (map (calm_cycle sample_listing)
               [None; Some OFF; Some OFF; Some ON; None; Some OFF]))) =
  [ (SPEAKER_SINK_NAME, "Speakers");
    (HEADPHONE_SINK_NAME, "Headphones");
    (SPEAKER_SINK_NAME, "Speakers") ].
Proof.
  apply (main_loop_scenario 3
           (map (calm_cycle sample_listing)
              [None; Some OFF; Some OFF; Some ON; None; Some OFF])).
  vm_compute. reflexivity.
Defined.

Lemma missed_switch_not_retried_witness :
  switches_of
    (fst (main_loop 3 None
            [calm_cycle EmptyString (Some ON); calm_cycle sample_listing (Some ON)])) =
  [switch_for ON].
Proof.
  apply (missed_switch_not_retried 3 None
           (calm_cycle EmptyString (Some ON))
           (calm_cycle sample_listing (Some ON)) ON);
    [reflexivity | discriminate | reflexivity | reflexivity | reflexivity].
Defined.





Lemma stereo_check_case_sensitive_witness :
  snd (find_sink_id "ARCTIS NOVA PRO" (Ok sample_listing)) = Ok (Some 52%N).
Proof.
  destruct (stereo_check_case_sensitive "Arctis Nova Pro" sample_listing)
    as (_ & Hcase & _).
  rewrite (Hcase "ARCTIS NOVA PRO" eq_refl). vm_compute. reflexivity.
Defined.

Lemma find_sink_id_gives_up_witness :
  switch_audio "Arctis Nova Pro" "Headphones" (c_switch dotted_name_cycle) =
  ([SwitchCalled "Arctis Nova Pro" "Headphones"; Run ["wpctl"; "status"];
    Print (LogFindSinkError IndexError); Print (LogNoSink "Arctis Nova Pro")],
   Ok tt).
Proof.
  destruct (find_sink_id_gives_up "Arctis Nova Pro" "Headphones"
              dotted_name_listing (c_switch dotted_name_cycle) []
              [ " │  *   52. Arctis Nova Pro Wireless Analog Stereo [vol: 0.95]";
                " │  " ]
              "        .Arctis Nova Pro Stereo" IndexError)
    as (_ & _ & Hswitch & _);
    [reflexivity | vm_compute; reflexivity | constructor
    | vm_compute; reflexivity | vm_compute; reflexivity | exact Hswitch].
Defined.


Lemma get_headset_state_io_error_witness :
  get_headset_state 3
    {| io_write := Ok 31; io_select := Ok (ReadableAfter 2);
       io_read := Raise OSError |} =
  ([OsWrite 3 POLL_COMMAND; Select 3 500 2; OsRead 3 128;
    Print (LogPollError OSError)], Ok None).
Proof.
  destruct (get_headset_state_io_error 3
              {| io_write := Ok 31; io_select := Ok (ReadableAfter 2);
                 io_read := Raise OSError |} OSError) as (_ & _ & Hread).
  apply (Hread 31 2%N); [reflexivity | reflexivity | discriminate | reflexivity].
Defined.

Lemma switch_audio_listing_error_witness :
  switch_audio "Arctis Nova Pro" "Headphones"
    (c_switch (listing_unavailable (Some ON))) =
  ([SwitchCalled "Arctis Nova Pro" "Headphones"; Run ["wpctl"; "status"];
    Print (LogFindSinkError FileNotFoundError);
    Print (LogNoSink "Arctis Nova Pro")], Ok tt).
Proof.
  apply (switch_audio_listing_error "Arctis Nova Pro" "Headphones"
           (c_switch (listing_unavailable (Some ON))) FileNotFoundError).
  reflexivity.
Defined.

Lemma main_loop_tracks_last_definitive_witness :
  Some OFF =
  last (map Some
          (definitive
             (polls_of
                (fst (main_loop 3 None
                        (map (calm_cycle sample_listing)
                           [Some ON; None; Some OFF; None]))))))
    None.
Proof.
  apply (main_loop_tracks_last_definitive 3
           (map (calm_cycle sample_listing) [Some ON; None; Some OFF; None])
           (Some OFF)).
  vm_compute. reflexivity.
Defined.

Lemma main_survives_handled_errors_witness :
  exists last_state,
    snd (main sample_env
           [read_fails; listing_unavailable (Some ON);
            calm_cycle EmptyString (Some OFF)]) = Running last_state.
Proof.
  apply (main_survives_handled_errors sample_env
           [read_fails; listing_unavailable (Some ON);
            calm_cycle EmptyString (Some OFF)] "/dev/hidraw10" 3%Z);
    try (vm_compute; reflexivity).
  repeat constructor; try exact I; try (now exists 0%Z); try (now exists 1%Z).
Defined.

Lemma main_closes_descriptor_witness :
  exists tr,
    main sample_env [set_default_unavailable] = (tr ++ [OsClose 3], Exited 1).
Proof.
  destruct (main_closes_descriptor sample_env [set_default_unavailable]
              "/dev/hidraw10" 3%Z OSError)
    as (tr & _ & _ & _ & Hexc); try (vm_compute; reflexivity).
  exists tr. apply Hexc. reflexivity.
Defined.

Lemma main_open_failure_witness :
  snd (main (open_fails FileNotFoundError) [calm_cycle sample_listing (Some ON)]) =
  Exited 1.
Proof.
  rewrite (main_open_failure (open_fails FileNotFoundError)
             [calm_cycle sample_listing (Some ON)] "/dev/hidraw10"
             FileNotFoundError);
    vm_compute; reflexivity.
Defined.

Lemma charging_is_online_witness :
  List.length
    (switches_of
       (fst (main_loop 3 None [reporting x08; reporting x02; reporting x08]))) <= 1.
Proof.
  apply (charging_is_online 3 [reporting x08; reporting x02; reporting x08]).
  repeat constructor; intros data Hans;
    [exists x08 | exists x02 | exists x08];
    (split; [now apply reporting_report | auto]).
Defined.

Lemma uevent_path_of_node_witness :
  uevent_path_of "/dev/hidraw12" = "/sys/class/hidraw/hidraw12/device/uevent".
Proof.
  destruct (uevent_path_of_node "12" eq_refl) as [Hpath _]. exact Hpath.
Defined.

Lemma sink_number_reads_identifier_witness :
  sink_number " │  *   52. Arctis Nova Pro Wireless Analog Stereo [vol: 0.95]" =
  Ok (Some 52%N).
Proof.
  destruct (sink_number_reads_identifier " │  *   "
              " Arctis Nova Pro Wireless Analog Stereo [vol: 0.95]"
              (plainb_plain " │  *   " eq_refl) eq_refl eq_refl)
    as (_ & _ & Hn).
  apply (Hn 52%N). apply Nat.leb_le. reflexivity.
Defined.


Lemma main_interrupted_while_sleeping_witness :
  snd (main sample_env
         ([calm_cycle sample_listing (Some ON)] ++
          interrupted_sleep sample_listing None ::
          [calm_cycle sample_listing (Some OFF)])) = Exited 0.
Proof.
  apply (main_interrupted_while_sleeping sample_env "/dev/hidraw10" 3%Z
           [calm_cycle sample_listing (Some ON)]
           (interrupted_sleep sample_listing None)
           [calm_cycle sample_listing (Some OFF)]);
    try (vm_compute; reflexivity).
  - repeat constructor; try exact I. now exists 0%Z.
  - repeat split; try exact I. now exists 0%Z.
Defined.


Lemma find_sink_id_without_header_witness :
  switch_audio "Arctis Nova Pro" "Headphones"
    {| io_status := Ok "Could not connect to PipeWire";
       io_set_default := Ok 0%Z |} =
  ([SwitchCalled "Arctis Nova Pro" "Headphones"; Run ["wpctl"; "status"];
    Print (LogNoSink "Arctis Nova Pro")], Ok tt).
Proof.
  apply (find_sink_id_without_header "Arctis Nova Pro" "Headphones"
           "Could not connect to PipeWire"
           {| io_status := Ok "Could not connect to PipeWire";
              io_set_default := Ok 0%Z |}); reflexivity.
Defined.
